(** * College_daddy: theme manager, mobile menu, offline cache and the
    notes-metadata script, embedded in Rocq.

    Sources embedded here:
    - [assets/js/components/navigation.js] (navUtils, MobileMenu, the first
      ThemeManager);
    - the navigation script with auto-mode (ThemeManager with
      [getAutoTheme], [toggleAutoMode], [startAutoThemeCheck]);
    - [offline/offlineCache.js] ([saveOfflineData], [loadOfflineData]);
    - the metadata script ([formatFileSize], [generateKeywords],
      [createMaterialFromFile], [findSubjectByPath], [scanForNewFiles],
      [updateMaterialMetadata] and the top-level flow);
    - [scripts/auto-update-watcher.js] ([isAppRunning], [updateMetadata] and
      the [fs.watch] callback).

    JavaScript strings are modelled as [string] (sequences of 8-bit code
    units), JavaScript exceptions as an explicit [Throw] result, the console,
    timers, local storage and the file system as explicit state.  The
    metadata script is modelled as Node runs it on a POSIX system
    ([path.sep] is the slash). *)

From Stdlib Require Import ZArith Ascii String DecimalString.
From stdpp Require Import gmap strings list fin_maps.

(** ** JavaScript results: a value or a thrown exception *)

Inductive Result (A : Type) : Type :=
| Ok (a : A)
| Throw (e : string).
Arguments Ok {A} a.
Arguments Throw {A} e.

(** ** JavaScript string primitives *)

Module Js.

Definition is_empty (s : string) : bool :=
  match s with EmptyString => true | String _ _ => false end.

(** [truthy s]: a JavaScript string is falsy exactly when it is empty. *)
Definition truthy (s : string) : bool := negb (is_empty s).

Definition str_eqb (a b : string) : bool := bool_decide (a = b).

(** [s.startsWith(p)] *)
Fixpoint startsWith (p s : string) : bool :=
  match p, s with
  | EmptyString, _ => true
  | String a p', String b s' => bool_decide (a = b) && startsWith p' s'
  | String _ _, EmptyString => false
  end.

(** [s.includes(sub)] *)
Fixpoint includes (sub s : string) : bool :=
  startsWith sub s ||
  match s with
  | EmptyString => false
  | String _ s' => includes sub s'
  end.

Fixpoint rev_onto (s acc : string) : string :=
  match s with
  | EmptyString => acc
  | String c s' => rev_onto s' (String c acc)
  end.

Definition rev (s : string) : string := rev_onto s "".

(** [s.endsWith(suf)] *)
Definition endsWith (suf s : string) : bool :=
  startsWith (rev suf) (rev s).

(** [s.substring(n)] for [n] within range: drop the first [n] units. *)
Fixpoint substring_from (n : nat) (s : string) : string :=
  match n, s with
  | O, _ => s
  | S n', String _ s' => substring_from n' s'
  | S _, EmptyString => EmptyString
  end.

(** [s.split(sep)] for a non-empty separator.  [skip] counts the code
    units of a separator occurrence still to be consumed, [cur] holds the
    current piece in reverse. *)
Fixpoint split_aux (sep : string) (skip : nat) (cur : string) (s : string)
  : list string :=
  match s with
  | EmptyString => [rev cur]
  | String c s' =>
      match skip with
      | S k => split_aux sep k cur s'
      | O =>
          if startsWith sep s
          then rev cur :: split_aux sep (String.length sep - 1) "" s'
          else split_aux sep 0 (String c cur) s'
      end
  end.

Definition split (sep s : string) : list string := split_aux sep 0 "" s.

(** [parts.join(sep)] *)
Fixpoint join (sep : string) (parts : list string) : string :=
  match parts with
  | [] => ""
  | [p] => p
  | p :: rest => p +:+ sep +:+ join sep rest
  end.

Definition lower_ascii (c : ascii) : ascii :=
  let n := nat_of_ascii c in
  if (65 <=? n)%nat && (n <=? 90)%nat then ascii_of_nat (n + 32) else c.

(** [s.toLowerCase()] on the ASCII range. *)
Fixpoint toLowerCase (s : string) : string :=
  match s with
  | EmptyString => EmptyString
  | String c s' => String (lower_ascii c) (toLowerCase s')
  end.

(** [s.replace(pat, rep)] with a string pattern: the first occurrence
    only. *)
Fixpoint replace_first (pat rep s : string) : string :=
  if startsWith pat s then rep +:+ substring_from (String.length pat) s
  else
    match s with
    | EmptyString => EmptyString
    | String c s' => String c (replace_first pat rep s')
    end.

(** [s.replace(/\\/g, '/')] *)
Fixpoint backslashes_to_slashes (s : string) : string :=
  match s with
  | EmptyString => EmptyString
  | String c s' =>
      String (if bool_decide (c = "\"%char) then "/"%char else c)
             (backslashes_to_slashes s')
  end.

Definition is_digit (c : ascii) : bool :=
  let n := nat_of_ascii c in (48 <=? n)%nat && (n <=? 57)%nat.

(** [\s] on the ASCII range: tab, line feed, vertical tab, form feed,
    carriage return, space. *)
Definition is_space (c : ascii) : bool :=
  let n := nat_of_ascii c in
  ((9 <=? n)%nat && (n <=? 13)%nat) || (n =? 32)%nat.

Fixpoint take_while (p : ascii -> bool) (s : string) : string :=
  match s with
  | EmptyString => EmptyString
  | String c s' => if p c then String c (take_while p s') else EmptyString
  end.

Fixpoint drop_while (p : ascii -> bool) (s : string) : string :=
  match s with
  | EmptyString => EmptyString
  | String c s' => if p c then drop_while p s' else s
  end.

Definition hex_value (c : ascii) : option Z :=
  let n := Z.of_nat (nat_of_ascii c) in
  if (48 <=? n)%Z && (n <=? 57)%Z then Some (n - 48)%Z
  else if (97 <=? n)%Z && (n <=? 102)%Z then Some (n - 87)%Z
  else if (65 <=? n)%Z && (n <=? 70)%Z then Some (n - 55)%Z
  else None.

Definition is_hex (c : ascii) : bool :=
  match hex_value c with Some _ => true | None => false end.

Fixpoint digits_value (radix : Z) (acc : Z) (s : string) : Z :=
  match s with
  | EmptyString => acc
  | String c s' =>
      match hex_value c with
      | Some d => digits_value radix (acc * radix + d)%Z s'
      | None => acc
      end
  end.

(** [parseInt(s)] without a radix: leading white space, an optional sign,
    an optional [0x] prefix, then the longest run of digits; [None] is
    [NaN]. *)
Definition parseInt (s : string) : option Z :=
  let s1 := drop_while is_space s in
  let '(sign, s2) :=
    match s1 with
    | String "-"%char r => ((-1)%Z, r)
    | String "+"%char r => (1%Z, r)
    | _ => (1%Z, s1)
    end in
  let '(radix, s3) :=
    match s2 with
    | String "0"%char (String "x"%char r) => (16%Z, r)
    | String "0"%char (String "X"%char r) => (16%Z, r)
    | _ => (10%Z, s2)
    end in
  let ds := take_while (if (radix =? 16)%Z then is_hex else is_digit) s3 in
  if is_empty ds then None else Some (sign * digits_value radix 0 ds)%Z.

(** [s] between double quotes, as a template prints it. *)
Definition quoted (s : string) : string :=
  String (ascii_of_nat 34) (s +:+ String (ascii_of_nat 34) EmptyString).

(** [String(n)] for a natural number. *)
Definition of_N (n : N) : string := NilEmpty.string_of_uint (N.to_uint n).

End Js.

(** ** Node's [path] module (POSIX flavour, [path.sep = "/"]) *)

Module Path.

Definition sep : string := "/".

(** One step of Node's [normalizeString]: [stack] is the list of segments
    kept so far, most recent first. *)
Definition normalize_step (absolute : bool) (stack : list string)
  (seg : string) : list string :=
  if Js.str_eqb seg "" || Js.str_eqb seg "." then stack
  else if Js.str_eqb seg ".." then
    match stack with
    | top :: below =>
        if Js.str_eqb top ".." then seg :: stack else below
    | [] => if absolute then [] else [seg]
    end
  else seg :: stack.

(** [path.normalize(p)] *)
Definition normalize (p : string) : string :=
  let absolute := Js.startsWith "/" p in
  let trailing := Js.endsWith "/" p in
  let segs :=
    reverse (fold_left (normalize_step absolute) (Js.split "/" p) []) in
  let body := Js.join "/" segs in
  if Js.is_empty body then
    (if absolute then "/" else if trailing then "./" else ".")
  else
    (if absolute then "/" else "") +:+ body +:+ (if trailing then "/" else "").

(** [path.join(a, b)] for non-empty [a] and [b]. *)
Definition join (a b : string) : string := normalize (a +:+ "/" +:+ b).

(** [path.join(dir, item)] as the directory walk uses it: [dir] is already
    normalized and [item] is an entry name returned by [readdirSync] (never
    empty, ["."] or [".."], and without ["/"]), for which the normalization
    of [dir + "/" + item] is that very string ([join_entry_is_join]
    below). *)
Definition join_entry (dir item : string) : string := dir +:+ "/" +:+ item.

(** [path.relative(from, to)] for a path [to] that lies below the
    normalized directory [from]: what follows [from + "/"]. *)
Definition relative (from to : string) : string :=
  if Js.startsWith (from +:+ "/") to
  then Js.substring_from (String.length from + 1) to
  else to.

Definition last_segment (p : string) : string :=
  List.last (filter (fun seg => Js.truthy seg = true) (Js.split "/" p)) "".

(** [path.basename(p, ext)]: the last segment, with [ext] removed when the
    segment ends with it and is not [ext] itself. *)
Definition basename (p ext : string) : string :=
  let b := last_segment p in
  if Js.endsWith ext b && negb (Js.str_eqb b ext)
  then Js.rev (Js.substring_from (String.length ext) (Js.rev b))
  else b.

End Path.

(** ** The notes catalog ([data/notes-data.json]) *)

Record Material := {
  title : string;
  description : string;
  path : string;
  type : string;
  size : string;
  uploadDate : string;
  downloadUrl : string;
  keywords : list string
}.

Record Subject := { name : string; materials : list Material }.
Record Branch := { branch_id : string; subjects : list Subject }.
Record Semester := { semester_id : Z; branches : list Branch }.
Record Catalog := { semesters : list Semester }.

(** Every material of the catalog, in document order. *)
Definition subject_materials (b : Branch) : list Material :=
  flat_map materials (subjects b).
Definition semester_materials (s : Semester) : list Material :=
  flat_map subject_materials (branches s).
Definition all_materials (c : Catalog) : list Material :=
  flat_map semester_materials (semesters c).

(** ** The file system seen by the script *)

(** [fs.Stats]: the size in bytes and [mtime.toISOString()]. *)
Record Stats := { st_size : N; st_mtime : string }.

#[local] Set Warnings "-register-all".
Inductive Node :=
| File (st : Stats)
| Directory (st : Stats) (items : list (string * Node)).

Definition node_stats (n : Node) : Stats :=
  match n with File st => st | Directory st _ => st end.

Definition isDirectory (n : Node) : bool :=
  match n with File _ => false | Directory _ _ => true end.

Fixpoint entry (nm : string) (items : list (string * Node)) : option Node :=
  match items with
  | [] => None
  | (n, x) :: rest => if Js.str_eqb n nm then Some x else entry nm rest
  end.

(** Path resolution from the root directory: [above] holds the ancestors
    of [cur], nearest first. *)
Fixpoint walk_path (above : list Node) (cur : Node) (segs : list string)
  : option Node :=
  match segs with
  | [] => Some cur
  | seg :: rest =>
      match cur with
      | File _ => None
      | Directory _ items =>
          if Js.str_eqb seg "" || Js.str_eqb seg "." then
            walk_path above cur rest
          else if Js.str_eqb seg ".." then
            match above with
            | parent :: higher => walk_path higher parent rest
            | [] => walk_path [] cur rest
            end
          else
            match entry seg items with
            | Some child => walk_path (cur :: above) child rest
            | None => None
            end
      end
  end.

(** The environment of one run: [root] is [path.join(__dirname, '..')]
    (normalized, without a trailing slash), [cwd] the working directory and
    [disk] the root directory of the file system. *)
Record Env := { root : string; cwd : string; disk : Node }.

Definition resolve (env : Env) (p : string) : option Node :=
  let absolute := if Js.startsWith "/" p then p else cwd env +:+ "/" +:+ p in
  walk_path [] (disk env) (Js.split "/" absolute).

(** [fs.statSync(p)]: throws when the path does not resolve. *)
Definition statSync (env : Env) (p : string) : Result Stats :=
  match resolve env p with
  | Some n => Ok (node_stats n)
  | None => Throw ("ENOENT: no such file or directory, stat '" +:+ p +:+ "'")
  end.

Definition jsonPath (env : Env) : string := root env +:+ "/data/notes-data.json".
Definition notesDir (env : Env) : string := root env +:+ "/data/notes".

(** ** The metadata script *)

Module Metadata.

Definition sizes : list string := ["Bytes"; "KB"; "MB"; "GB"].

(** [String(h / 100)] for a number with at most two decimals, given as a
    count [h] of hundredths: trailing zeros of the fraction are not
    printed. *)
Definition show_hundredths (h : N) : string :=
  let ip := (h / 100)%N in
  let fp := (h mod 100)%N in
  if (fp =? 0)%N then Js.of_N ip
  else if (fp mod 10 =? 0)%N then Js.of_N ip +:+ "." +:+ Js.of_N (fp / 10)
  else Js.of_N ip +:+ "." +:+ (if (fp <? 10)%N then "0" else "") +:+ Js.of_N fp.

(** [formatFileSize(bytes)].  The source computes with IEEE doubles; here
    [Math.floor(Math.log(bytes) / Math.log(k))] is the exact
    [floor (log_1024 bytes)] and [Math.round(bytes / k^i * 100)] the exact
    quotient rounded half up.  [sizes[i]] beyond the table is [undefined],
    which string concatenation prints as ["undefined"]. *)
Definition formatFileSize (bytes : N) : string :=
  if (bytes =? 0)%N then "0 Bytes"
  else
    let k := 1024%N in
    let i := (N.log2 bytes / 10)%N in
    let hundredths := ((200 * bytes + k ^ i) / (2 * k ^ i))%N in
    show_hundredths hundredths +:+ " " +:+
      default "undefined" (sizes !! N.to_nat i).

Definition is_ivx (c : ascii) : bool :=
  let l := Js.lower_ascii c in
  bool_decide (l = "i"%char) || bool_decide (l = "v"%char)
  || bool_decide (l = "x"%char).

(** The tail [\s*(\d+|[ivx]+)] of the module pattern, anchored at [s]:
    the text of the capture group. *)
Definition match_number_or_roman (s : string) : option string :=
  let s1 := Js.drop_while Js.is_space s in
  let d := Js.take_while Js.is_digit s1 in
  if Js.truthy d then Some d
  else
    let r := Js.take_while is_ivx s1 in
    if Js.truthy r then Some r else None.

(** The tail [\s*(\d+)] of the unit pattern. *)
Definition match_number (s : string) : option string :=
  let d := Js.take_while Js.is_digit (Js.drop_while Js.is_space s) in
  if Js.truthy d then Some d else None.

Definition after_prefix_ci (word s : string) : option string :=
  if Js.startsWith word (Js.toLowerCase s)
  then Some (Js.substring_from (String.length word) s)
  else None.

(** [name.match(/(mod|module)\s*(\d+|[ivx]+)/i)]: group 2 of the leftmost
    match; at one position the alternative [mod] is tried before
    [module]. *)
Fixpoint match_module (s : string) : option string :=
  let here :=
    match after_prefix_ci "mod" s ≫= match_number_or_roman with
    | Some g => Some g
    | None => after_prefix_ci "module" s ≫= match_number_or_roman
    end in
  match here with
  | Some g => Some g
  | None =>
      match s with
      | EmptyString => None
      | String _ s' => match_module s'
      end
  end.

(** [name.match(/unit\s*(\d+)/i)]: group 1 of the leftmost match. *)
Fixpoint match_unit (s : string) : option string :=
  match after_prefix_ci "unit" s ≫= match_number with
  | Some g => Some g
  | None =>
      match s with
      | EmptyString => None
      | String _ s' => match_unit s'
      end
  end.

Definition subject_abbreviation (subjectName : string) : list string :=
  let lower := Js.toLowerCase subjectName in
  if Js.includes "computer network" lower then ["cn"]
  else if Js.includes "research methodology" lower then ["rm"]
  else if Js.includes "sepm" lower then ["sepm"]
  else if Js.includes "theory of computation" lower then ["toc"]
  else if Js.includes "dbms" lower then ["dbms"]
  else if Js.includes "ada" lower then ["ada"]
  else [].

Definition generateKeywords (filename subjectName : string) : list string :=
  let name := Js.replace_first ".pdf" "" (Js.toLowerCase filename) in
  let keywords := subject_abbreviation subjectName in
  let keywords :=
    if Js.includes "mod" name || Js.includes "module" name then
      match match_module name with
      | Some g => keywords ++ ["mod " +:+ g]
      | None => keywords
      end
    else keywords in
  let keywords :=
    if Js.includes "unit" name then
      match match_unit name with
      | Some g => keywords ++ ["unit " +:+ g]
      | None => keywords
      end
    else keywords in
  let keywords :=
    if Js.includes "lab" name then keywords ++ ["lab manual"] else keywords in
  let keywords :=
    if Js.includes "notes" name then keywords ++ ["notes"] else keywords in
  match keywords with
  | [] => [default "" (head (Js.split " " (Js.toLowerCase subjectName)))]
  | _ => keywords
  end.

(** [parts[parts.length - 2]]; [None] is [undefined]. *)
Definition second_to_last (parts : list string) : option string :=
  match length parts with
  | S (S n) => parts !! n
  | _ => None
  end.

(** [stats.mtime.toISOString().split('T')[0]] *)
Definition date_part (st : Stats) : string :=
  default "" (head (Js.split "T" (st_mtime st))).

(** [path.relative(path.join(__dirname, '..'), p).replace(/\\/g, '/')] *)
Definition relativePath (env : Env) (p : string) : string :=
  Js.backslashes_to_slashes (Path.relative (root env) p).

(** The text a template literal prints for [parts[1]]. *)
Definition after_notes (rel : string) : string :=
  default "undefined" (Js.split "data/notes/" rel !! 1%nat).

Definition createMaterialFromFile (env : Env) (filePath : string)
  (stats : Stats) : Material :=
  let rel := relativePath env filePath in
  let filename := Path.basename filePath ".pdf" in
  let pathParts := Js.split "/" rel in
  let subjectName :=
    match second_to_last pathParts with
    | Some s => if Js.truthy s then s else "Unknown"
    | None => "Unknown"
    end in
  {| title := filename;
     description := subjectName +:+ " notes";
     path := "../data/notes/" +:+ after_notes rel;
     type := "pdf";
     size := formatFileSize (st_size stats);
     uploadDate := date_part stats;
     downloadUrl := "../data/notes/" +:+ after_notes rel;
     keywords := generateKeywords filename subjectName |}.

(** The folder-to-subject alias table of [findSubjectByPath]. *)
Definition mappings : list (string * list string) :=
  [ ("computer network", ["computer network"; "cn"]);
    ("research methadology", ["research methodology"; "rm"]);
    ("theory of computation", ["theory of computation"; "toc"]);
    ("operating-system", ["operating system"; "os"]);
    ("graph-theory", ["graph theory"]);
    ("microcontroller", ["microcontroller"]);
    ("manuals", ["lab manual"]);
    ("question", ["question papers"; "pyq"]);
    ("syllabus", ["syllabus"]);
    ("pyq", ["pyq"; "question papers"]);
    ("evs", ["evs"]);
    ("ai", ["ai"]);
    ("sepm", ["sepm"]) ].

(** The predicate given to [branch.subjects.find]. *)
Definition subject_matches (subjectLower : string) (s : Subject) : bool :=
  let subjectName := Js.toLowerCase (name s) in
  Js.str_eqb subjectName subjectLower
  || Js.includes subjectLower subjectName
  || Js.includes subjectName subjectLower
  || existsb
       (fun '(folder, subs) =>
          Js.str_eqb subjectLower folder
          && existsb (fun sub => Js.includes sub subjectName) subs)
       mappings.

(** [l.find(p)], as the index of the element found. *)
Fixpoint find_index {A} (p : A -> bool) (l : list A) : option nat :=
  match l with
  | [] => None
  | x :: rest => if p x then Some O else S <$> find_index p rest
  end.

(** A subject of the catalog is designated by the indices of its semester,
    branch and subject. *)
Definition SubjectRef : Type := nat * nat * nat.

Definition findSubjectByPath (data : Catalog) (filePath : string)
  : option SubjectRef :=
  let pathParts := Js.split Path.sep filePath in
  semesterMatch ← List.find (Js.startsWith "semester-") pathParts;
  branchMatch ←
    List.find (fun part => existsb (Js.str_eqb part) ["cse"; "ai"; "physics"])
      pathParts;
  subjectMatch ← second_to_last pathParts;
  if negb (Js.truthy semesterMatch) || negb (Js.truthy branchMatch)
     || negb (Js.truthy subjectMatch)
  then None
  else
    semesterNum ← (Js.split "-" semesterMatch !! 1%nat) ≫= Js.parseInt;
    i ← find_index (fun s => bool_decide (semester_id s = semesterNum))
          (semesters data);
    semester ← semesters data !! i;
    j ← find_index (fun b => Js.str_eqb (branch_id b) branchMatch)
          (branches semester);
    branch ← branches semester !! j;
    k ← find_index (subject_matches (Js.toLowerCase subjectMatch))
          (subjects branch);
    Some (i, j, k).

(** [subject.materials.push(m)] on the subject designated by [ref]. *)
Definition push_material (ref : SubjectRef) (m : Material) (data : Catalog)
  : Catalog :=
  let '(i, j, k) := ref in
  let in_subject (s : Subject) :=
    {| name := name s; materials := materials s ++ [m] |} in
  let in_branch (b : Branch) :=
    {| branch_id := branch_id b;
       subjects := alter in_subject k (subjects b) |} in
  let in_semester (s : Semester) :=
    {| semester_id := semester_id s;
       branches := alter in_branch j (branches s) |} in
  {| semesters := alter in_semester i (semesters data) |}.

Definition subject_name (data : Catalog) (ref : SubjectRef) : string :=
  let '(i, j, k) := ref in
  default ""
    (s ← semesters data !! i; b ← branches s !! j;
     name <$> subjects b !! k).

(** What a run does to the outside: console lines and file writes. *)
Inductive Event :=
| ConsoleLog (line : string)
| WriteFile (file : string) (content : Catalog).

(** The state of the script: the global [data] and the events so far. *)
Record Script := { data : Catalog; events : list Event }.

Definition log (line : string) (st : Script) : Script :=
  {| data := data st; events := events st ++ [ConsoleLog line] |}.

(** The set built by the first loop of [scanForNewFiles]. *)
Definition collect_existing (c : Catalog) : gset string :=
  list_to_set (path <$> all_materials c).

(** The body of the [items.forEach] callback for a regular file. *)
Definition scanFile (env : Env) (existingPaths : gset string)
  (item fullPath : string) (stats : Stats) (st : Script) : Script :=
  if Js.endsWith ".pdf" item then
    let rel := relativePath env fullPath in
    let materialPath := "../" +:+ rel in
    if bool_decide (materialPath ∈ existingPaths) then st
    else
      match findSubjectByPath (data st) fullPath with
      | Some subject =>
          let newMaterial := createMaterialFromFile env fullPath stats in
          log ("Added: " +:+ title newMaterial +:+ " to "
               +:+ subject_name (data st) subject)
            {| data := push_material subject newMaterial (data st);
               events := events st |}
      | None => log ("No subject found for: " +:+ rel) st
      end
  else st.

(** [scanDirectory(dir)]: [items] are the entries [readdirSync(dir)] lists,
    each with the node [statSync] finds for it. *)
Fixpoint scanNode (env : Env) (existingPaths : gset string)
  (item fullPath : string) (n : Node) (st : Script) : Script :=
  match n with
  | Directory _ items =>
      (fix scanItems (l : list (string * Node)) (st : Script) : Script :=
         match l with
         | [] => st
         | (item', n') :: rest =>
             scanItems rest
               (scanNode env existingPaths item'
                  (Path.join_entry fullPath item') n' st)
         end) items st
  | File stats => scanFile env existingPaths item fullPath stats st
  end.

Fixpoint scanDirectory (env : Env) (existingPaths : gset string)
  (dir : string) (items : list (string * Node)) (st : Script) : Script :=
  match items with
  | [] => st
  | (item, n) :: rest =>
      scanDirectory env existingPaths dir rest
        (scanNode env existingPaths item (Path.join_entry dir item) n st)
  end.

(** [scanForNewFiles()]: [readdirSync(notesDir)] throws unless [notesDir]
    is a directory. *)
Definition scanForNewFiles (env : Env) (st : Script) : Result Script :=
  let existingPaths := collect_existing (data st) in
  match resolve env (notesDir env) with
  | Some (Directory _ items) =>
      Ok (scanDirectory env existingPaths (notesDir env) items st)
  | _ => Throw "ENOENT: no such file or directory, scandir"
  end.

(** The file [updateMaterialMetadata] looks at. *)
Definition material_file (env : Env) (material : Material) : string :=
  let filePath := path material in
  if Js.startsWith "../data/" filePath
  then Path.join (root env) (Js.substring_from 3 filePath)
  else if Js.startsWith "/data/" filePath
  then Path.join (root env) (Js.substring_from 1 filePath)
  else filePath.

(** [updateMaterialMetadata(material)]: the record after the call and the
    line it logs.  [stats.mtime] is a valid date, so that inside the [try]
    only [statSync] can throw. *)
Definition updateMaterialMetadata (env : Env) (material : Material)
  : Material * Event :=
  let filePath := material_file env material in
  match statSync env filePath with
  | Ok stats =>
      let material' :=
        {| title := title material;
           description := description material;
           path := path material;
           type := type material;
           size := formatFileSize (st_size stats);
           uploadDate := date_part stats;
           downloadUrl := downloadUrl material;
           keywords := keywords material |} in
      (material',
       ConsoleLog ("Updated: " +:+ title material' +:+ " - " +:+ size material'))
  | Throw _ => (material, ConsoleLog ("File not found: " +:+ filePath))
  end.

(** The nested [forEach] that calls [updateMaterialMetadata] on every
    material: the catalog afterwards and the lines logged, in order. *)
Definition update_subject (env : Env) (s : Subject) : Subject :=
  {| name := name s;
     materials := (fun m => (updateMaterialMetadata env m).1) <$> materials s |}.
Definition update_branch (env : Env) (b : Branch) : Branch :=
  {| branch_id := branch_id b;
     subjects := update_subject env <$> subjects b |}.
Definition update_semester (env : Env) (s : Semester) : Semester :=
  {| semester_id := semester_id s;
     branches := update_branch env <$> branches s |}.
Definition update_catalog (env : Env) (c : Catalog) : Catalog :=
  {| semesters := update_semester env <$> semesters c |}.

Definition updateAll (env : Env) (st : Script) : Script :=
  {| data := update_catalog env (data st);
     events := events st ++
       ((fun m => (updateMaterialMetadata env m).2) <$> all_materials (data st)) |}.

(** [fs.writeFileSync(jsonPath, JSON.stringify(data, null, 2))] followed by
    the closing [console.log]. *)
Definition writeBack (env : Env) (st : Script) : Script :=
  log "File metadata updated successfully!"
    {| data := data st;
       events := events st ++ [WriteFile (jsonPath env) (data st)] |}.

(** The script from top to bottom.  [parsed] is the outcome of
    [JSON.parse(fs.readFileSync(jsonPath, 'utf8'))]; an exception ends the
    run where it is thrown, and the events up to there are kept. *)
Definition main (env : Env) (parsed : Result Catalog)
  : Result unit * list Event :=
  match parsed with
  | Throw e => (Throw e, [])
  | Ok c =>
      match scanForNewFiles env {| data := c; events := [] |} with
      | Throw e => (Throw e, [])
      | Ok scanned => (Ok (), events (writeBack env (updateAll env scanned)))
      end
  end.

(** The regular files below a directory in the order [scanDirectory]
    visits them: entry name, full path and stats. *)
Fixpoint files_of_node (item fullPath : string) (n : Node)
  : list (string * string * Stats) :=
  match n with
  | Directory _ items =>
      (fix go (l : list (string * Node)) : list (string * string * Stats) :=
         match l with
         | [] => []
         | (item', n') :: rest =>
             files_of_node item' (Path.join_entry fullPath item') n' ++ go rest
         end) items
  | File stats => [(item, fullPath, stats)]
  end.

Fixpoint files_of_directory (dir : string) (items : list (string * Node))
  : list (string * string * Stats) :=
  match items with
  | [] => []
  | (item, n) :: rest =>
      files_of_node item (Path.join_entry dir item) n
        ++ files_of_directory dir rest
  end.

(** Entry names as a file system has them: not empty, without a slash or a
    backslash, and no name twice in one directory. *)
Definition plain_name (nm : string) : Prop :=
  nm ≠ "" ∧ Js.includes "/" nm = false ∧ Js.includes "\" nm = false.

Fixpoint tidy_node (n : Node) : Prop :=
  match n with
  | File _ => True
  | Directory _ items =>
      NoDup (items.*1) ∧
      (fix all (l : list (string * Node)) : Prop :=
         match l with
         | [] => True
         | (nm, n') :: rest => plain_name nm ∧ tidy_node n' ∧ all rest
         end) items
  end.

Fixpoint tidy_items (items : list (string * Node)) : Prop :=
  match items with
  | [] => True
  | (nm, n) :: rest => plain_name nm ∧ tidy_node n ∧ tidy_items rest
  end.

(** The entry name and the full path of a file found by the walk. *)
Definition file_item (f : string * string * Stats) : string := f.1.1.
Definition file_path (f : string * string * Stats) : string := f.1.2.

(** What the walk does with one file. *)
Definition scan_step (env : Env) (existingPaths : gset string) (st : Script)
  (f : string * string * Stats) : Script :=
  scanFile env existingPaths (file_item f) (file_path f) f.2 st.

(** The relative path of [fullPath] holds ["data/notes/"] at its start
    only, so that [relativePath.split('data/notes/')[1]] is all that follows
    it. *)
Definition notes_prefix_once (env : Env) (fullPath : string) : Prop :=
  Js.includes "data/notes/" (Js.substring_from 11 (relativePath env fullPath))
  = false.

(** The catalogs a run wrote, in order. *)
Definition written (evs : list Event) : list Catalog :=
  flat_map (fun e => match e with WriteFile _ c => [c] | ConsoleLog _ => [] end)
    evs.

End Metadata.

(** ** The browser: local storage, console, clock, timers and DOM *)

Module Browser.

(** [localStorage]: either every access throws (storage disabled), or the
    items are kept up to a quota counted in code units of keys and values,
    beyond which [setItem] throws. *)
Inductive Storage :=
| Unavailable
| Available (items : gmap string string) (quota : nat).

Definition usage (items : gmap string string) : nat :=
  map_fold (fun k v acc => String.length k + String.length v + acc) 0 items.

Definition getItem (key : string) (s : Storage) : Result (option string) :=
  match s with
  | Unavailable => Throw "SecurityError"
  | Available items _ => Ok (items !! key)
  end.

Definition setItem (key value : string) (s : Storage) : Result Storage :=
  match s with
  | Unavailable => Throw "SecurityError"
  | Available items quota =>
      let items' := <[key := value]> items in
      if decide (usage items' ≤ quota) then Ok (Available items' quota)
      else Throw "QuotaExceededError"
  end.

Inductive Level := Info | Warn | Error.

Record ConsoleLine := { level : Level; text : string }.

Inductive Target := TheDocument | TheElement (id : nat).

Inductive Icon := IconAuto | IconMoon | IconSun.

(** What a pending [setTimeout] will do. *)
Inductive Timeout :=
| RemoveTransitioning
| ShowNotification (id : nat)
| HideNotification (id : nat).

(** The part of the DOM the scripts touch.  [elements] gives, for a
    selector, the element [document.querySelector] finds first. *)
Record Document := {
  loading : bool;
  elements : gmap string nat;
  next_element : nat;
  listeners : list (Target * string);
  data_theme : option string;
  transitioning : bool;
  icon_text : option Icon;
  toggle_title : option string;
  notifications : list (nat * string)
}.

Record Browser := {
  localStorage : Storage;
  console : list ConsoleLine;
  hour : Z;
  document : Document;
  intervals : gset nat;
  timeouts : list Timeout;
  next_timer : nat
}.

Definition with_storage (s : Storage) (b : Browser) : Browser :=
  {| localStorage := s; console := console b; hour := hour b;
     document := document b; intervals := intervals b;
     timeouts := timeouts b; next_timer := next_timer b |}.

Definition with_document (d : Document) (b : Browser) : Browser :=
  {| localStorage := localStorage b; console := console b; hour := hour b;
     document := d; intervals := intervals b;
     timeouts := timeouts b; next_timer := next_timer b |}.

Definition print (l : Level) (line : string) (b : Browser) : Browser :=
  {| localStorage := localStorage b;
     console := console b ++ [{| level := l; text := line |}];
     hour := hour b; document := document b; intervals := intervals b;
     timeouts := timeouts b; next_timer := next_timer b |}.

(** [setTimeout(f, ms)] *)
Definition setTimeout (t : Timeout) (b : Browser) : Browser :=
  {| localStorage := localStorage b; console := console b; hour := hour b;
     document := document b; intervals := intervals b;
     timeouts := timeouts b ++ [t]; next_timer := S (next_timer b) |}.

(** [setInterval(f, ms)]: the handle returned, a positive integer, and the
    browser with the interval armed.  [next_timer] is the last handle given
    out. *)
Definition setInterval (b : Browser) : nat * Browser :=
  (S (next_timer b),
   {| localStorage := localStorage b; console := console b; hour := hour b;
      document := document b; intervals := {[S (next_timer b)]} ∪ intervals b;
      timeouts := timeouts b; next_timer := S (next_timer b) |}).

(** [clearInterval(id)] *)
Definition clearInterval (id : nat) (b : Browser) : Browser :=
  {| localStorage := localStorage b; console := console b; hour := hour b;
     document := document b; intervals := intervals b ∖ {[id]};
     timeouts := timeouts b; next_timer := next_timer b |}.

(** An object with a [querySelector] method: what the call returns or
    throws for each selector. *)
Definition Context : Type := string -> Result (option nat).

(** [document.querySelector]: the empty selector is a syntax error; the
    selectors the scripts pass literally are well formed and give the first
    match or [null]. *)
Definition document_context (d : Document) : Context :=
  fun selector =>
    if Js.is_empty selector then Throw "SyntaxError"
    else Ok (elements d !! selector).

End Browser.

(** ** [offline/offlineCache.js] *)

Module OfflineCache.
Import Browser.

Section Cache.

(** The JavaScript values handed to the cache, with the platform's
    [JSON.stringify] and [JSON.parse] (either may throw) and [null]. *)
Context {Value : Type}.
Variable JSON_stringify : Value -> Result string.
Variable JSON_parse : string -> Result Value.
Variable null : Value.

Definition saveOfflineData (key : string) (data : Value) (b : Browser)
  : bool * Browser :=
  match JSON_stringify data with
  | Throw e => (false, print Error ("Error saving offline data: " +:+ e) b)
  | Ok jsonData =>
      match setItem key jsonData (localStorage b) with
      | Throw e => (false, print Error ("Error saving offline data: " +:+ e) b)
      | Ok stored => (true, with_storage stored b)
      end
  end.

Definition loadOfflineData (key : string) (b : Browser) : Value * Browser :=
  match getItem key (localStorage b) with
  | Throw e => (null, print Error ("Error loading offline data: " +:+ e) b)
  | Ok None => (null, b)
  | Ok (Some data) =>
      if Js.truthy data then
        match JSON_parse data with
        | Ok v => (v, b)
        | Throw e => (null, print Error ("Error loading offline data: " +:+ e) b)
        end
      else (null, b)
  end.

End Cache.

(** A fragment of JSON for concrete runs: [null], the booleans and the
    natural numbers, printed and parsed as JSON does. *)
Inductive Scalar := SNull | SBool (v : bool) | SNum (n : N).

Definition stringify_scalar (v : Scalar) : Result string :=
  match v with
  | SNull => Ok "null"
  | SBool true => Ok "true"
  | SBool false => Ok "false"
  | SNum n => Ok (Js.of_N n)
  end.

Definition parse_scalar (s : string) : Result Scalar :=
  if Js.str_eqb s "null" then Ok SNull
  else if Js.str_eqb s "true" then Ok (SBool true)
  else if Js.str_eqb s "false" then Ok (SBool false)
  else
    match NilEmpty.uint_of_string s with
    | Some d =>
        if Js.truthy s && Js.str_eqb (Js.of_N (N.of_uint d)) s
        then Ok (SNum (N.of_uint d))
        else Throw "SyntaxError"
    | None => Throw "SyntaxError"
    end.

End OfflineCache.

(** ** [navUtils] and [MobileMenu] *)

Module Nav.
Import Browser.

(** [navUtils.querySelector(selector, context)] *)
Definition querySelector (selector : string) (context : Context)
  (b : Browser) : option nat * Browser :=
  match context selector with
  | Ok found => (found, b)
  | Throw e =>
      (None,
       print Error
         ("Error querying selector " +:+ Js.quoted selector +:+ ": " +:+ e) b)
  end.

Record MobileMenu := {
  menuButton : option nat;
  navLinks : option nat;
  overlay : option nat;
  initialized : bool
}.

(** The body of the [if] in [init]: the button is replaced by a clone, the
    click, overlay, document and keyboard listeners are added and the
    overlay is created when the page has none. *)
Definition init_elements (button links : nat) (b : Browser)
  : MobileMenu * Browser :=
  let d := document b in
  let newMenuButton := next_element d in
  let '(overlay_id, created) :=
    match elements d !! ".nav-overlay" with
    | Some o => (o, false)
    | None => (S newMenuButton, true)
    end in
  let d' :=
    {| loading := loading d;
       elements :=
         (if created
          then <[".nav-overlay" := overlay_id]>
          else (fun m => m)) (<[".menu-button" := newMenuButton]> (elements d));
       next_element := if created then S (S newMenuButton) else S newMenuButton;
       listeners :=
         listeners d ++
           [(TheElement newMenuButton, "click"); (TheElement overlay_id, "click");
            (TheDocument, "click"); (TheDocument, "keydown")];
       data_theme := data_theme d;
       transitioning := transitioning d;
       icon_text := icon_text d;
       toggle_title := toggle_title d;
       notifications := notifications d |} in
  ({| menuButton := Some newMenuButton; navLinks := Some links;
      overlay := Some overlay_id; initialized := true |},
   print Info "Mobile menu initialized successfully" (with_document d' b)).

(** [init()] *)
Definition init (m : MobileMenu) (b : Browser) : MobileMenu * Browser :=
  match menuButton m, navLinks m, initialized m with
  | Some button, Some links, false => init_elements button links b
  | _, _, _ =>
      (m, print Error "Menu elements not found or already initialized" b)
  end.

(** [new MobileMenu()] *)
Definition new_MobileMenu (b : Browser) : MobileMenu * Browser :=
  let '(button, b1) :=
    querySelector ".menu-button" (document_context (document b)) b in
  let '(links, b2) :=
    querySelector ".nav-links" (document_context (document b1)) b1 in
  init {| menuButton := button; navLinks := links; overlay := None;
          initialized := false |} b2.

End Nav.

(** ** [MobileMenu.toggleMenu] and the listeners [init] registers *)

Module Menu.

(** The part of the page the menu reads and writes: the class lists of
    [navLinks] and of the overlay, the button's [aria-expanded] attribute,
    [document.body.style.overflow], and the console. *)
Record Page := {
  navLinks_classList : gset string;
  overlay_classList : gset string;
  aria_expanded : option string;
  body_overflow : string;
  console : list string
}.

(** [classList.contains(c)] *)
Definition contains (c : string) (classList : gset string) : bool :=
  bool_decide (c ∈ classList).

(** [toggleMenu()] *)
Definition toggleMenu (p : Page) : Page :=
  if contains "active" (navLinks_classList p) then
    {| navLinks_classList := navLinks_classList p ∖ {["active"]};
       overlay_classList := overlay_classList p ∖ {["active"]};
       aria_expanded := Some "false";
       body_overflow := "";
       console := console p ++ ["Toggling menu"] |}
  else
    {| navLinks_classList := {["active"]} ∪ navLinks_classList p;
       overlay_classList := {["active"]} ∪ overlay_classList p;
       aria_expanded := Some "true";
       body_overflow := "hidden";
       console := console p ++ ["Toggling menu"] |}.

(** The listener on the menu button. *)
Definition on_button_click (p : Page) : Page := toggleMenu p.

(** The listener on the overlay. *)
Definition on_overlay_click (p : Page) : Page :=
  if contains "active" (navLinks_classList p) then toggleMenu p else p.

(** The click listener on the document; the arguments are
    [navLinks.contains(e.target)] and [menuButton.contains(e.target)]. *)
Definition on_document_click (inNavLinks inMenuButton : bool) (p : Page)
  : Page :=
  if contains "active" (navLinks_classList p) && negb inNavLinks
     && negb inMenuButton
  then toggleMenu p else p.

(** The keyboard listener on the document. *)
Definition on_keydown (key : string) (p : Page) : Page :=
  if Js.str_eqb key "Escape" && contains "active" (navLinks_classList p)
  then toggleMenu p else p.

(** What the user does.  A click in the menu button runs the button's
    listener, which stops the propagation; a click on the overlay, which
    lies outside the links and the button, runs the overlay's listener and
    then bubbles to the document's; any other click reaches the document's
    listener only. *)
Inductive Event :=
| ClickMenuButton
| ClickOverlay
| ClickElsewhere (inNavLinks : bool)
| KeyDown (key : string).

Definition dispatch (e : Event) (p : Page) : Page :=
  match e with
  | ClickMenuButton => on_button_click p
  | ClickOverlay => on_document_click false false (on_overlay_click p)
  | ClickElsewhere inNavLinks => on_document_click inNavLinks false p
  | KeyDown key => on_keydown key p
  end.

End Menu.

(** ** The ThemeManager of [assets/js/components/navigation.js] *)

Module ThemeBasic.
Import Browser.

Record ThemeManager := { theme : string }.

Definition getStoredTheme (b : Browser) : option string * Browser :=
  match getItem "theme" (localStorage b) with
  | Ok v => (v, b)
  | Throw e => (None, print Warn ("localStorage not available: " +:+ e) b)
  end.

Definition setStoredTheme (theme : string) (b : Browser) : Browser :=
  match setItem "theme" theme (localStorage b) with
  | Ok stored => with_storage stored b
  | Throw e => print Warn ("localStorage not available: " +:+ e) b
  end.

Definition set_data_theme (theme : string) (d : Document) : Document :=
  {| loading := loading d; elements := elements d;
     next_element := next_element d; listeners := listeners d;
     data_theme := Some theme; transitioning := transitioning d;
     icon_text := icon_text d; toggle_title := toggle_title d;
     notifications := notifications d |}.

Definition set_icon (i : Icon) (d : Document) : Document :=
  {| loading := loading d; elements := elements d;
     next_element := next_element d; listeners := listeners d;
     data_theme := data_theme d; transitioning := transitioning d;
     icon_text := Some i; toggle_title := toggle_title d;
     notifications := notifications d |}.

Definition updateToggleIcon (tm : ThemeManager) (b : Browser) : Browser :=
  match elements (document b) !! ".theme-toggle .theme-icon" with
  | Some _ =>
      with_document
        (set_icon (if Js.str_eqb (theme tm) "dark" then IconMoon else IconSun)
           (document b)) b
  | None => b
  end.

Definition applyTheme (theme' : string) (tm : ThemeManager) (b : Browser)
  : ThemeManager * Browser :=
  let tm' := {| theme := theme' |} in
  let b1 := with_document (set_data_theme theme' (document b)) b in
  let b2 := setStoredTheme theme' b1 in
  (tm', updateToggleIcon tm' b2).

Definition toggleTheme (tm : ThemeManager) (b : Browser)
  : ThemeManager * Browser :=
  let newTheme := if Js.str_eqb (theme tm) "dark" then "light" else "dark" in
  applyTheme newTheme tm b.

Definition add_listener (t : Target) (ev : string) (d : Document) : Document :=
  {| loading := loading d; elements := elements d;
     next_element := next_element d; listeners := listeners d ++ [(t, ev)];
     data_theme := data_theme d; transitioning := transitioning d;
     icon_text := icon_text d; toggle_title := toggle_title d;
     notifications := notifications d |}.

Definition setupToggleButton (tm : ThemeManager) (b : Browser) : Browser :=
  match elements (document b) !! ".theme-toggle" with
  | Some themeToggle =>
      updateToggleIcon tm
        (with_document (add_listener (TheElement themeToggle) "click" (document b)) b)
  | None => b
  end.

Definition init (tm : ThemeManager) (b : Browser) : ThemeManager * Browser :=
  let '(tm1, b1) := applyTheme (theme tm) tm b in
  if loading (document b1)
  then (tm1, with_document
               (add_listener TheDocument "DOMContentLoaded" (document b1)) b1)
  else (tm1, setupToggleButton tm1 b1).

(** [new ThemeManager()]: [getStoredTheme() || 'dark'] takes the default
    when nothing is stored or the stored string is empty. *)
Definition new_ThemeManager (b : Browser) : ThemeManager * Browser :=
  let '(stored, b1) := getStoredTheme b in
  let theme0 :=
    match stored with
    | Some t => if Js.truthy t then t else "dark"
    | None => "dark"
    end in
  init {| theme := theme0 |} b1.

End ThemeBasic.

(** ** The ThemeManager with auto-switch *)

Module Theme.
Import Browser.

Record ThemeManager := {
  theme : string;
  autoMode : bool;
  autoCheckInterval : option nat
}.

Definition getStoredTheme (b : Browser) : option string * Browser :=
  match getItem "theme" (localStorage b) with
  | Ok v => (v, b)
  | Throw e => (None, print Warn ("localStorage not available: " +:+ e) b)
  end.

Definition setStoredTheme (theme : string) (b : Browser) : Browser :=
  match setItem "theme" theme (localStorage b) with
  | Ok stored => with_storage stored b
  | Throw e => print Warn ("localStorage not available: " +:+ e) b
  end.

Definition getAutoMode (b : Browser) : bool * Browser :=
  match getItem "themeAutoMode" (localStorage b) with
  | Ok (Some v) => (Js.str_eqb v "true", b)
  | Ok None => (false, b)
  | Throw _ => (false, b)
  end.

Definition setAutoMode (enabled : bool) (b : Browser) : Browser :=
  match setItem "themeAutoMode" (if enabled then "true" else "false")
          (localStorage b) with
  | Ok stored => with_storage stored b
  | Throw e => print Warn ("localStorage not available: " +:+ e) b
  end.

(** [getAutoTheme()]: [hour b] is [new Date().getHours()]. *)
Definition getAutoTheme (b : Browser) : string :=
  if (18 <=? hour b)%Z || (hour b <? 6)%Z then "dark" else "light".

Definition set_title (t : string) (d : Document) : Document :=
  {| loading := loading d; elements := elements d;
     next_element := next_element d; listeners := listeners d;
     data_theme := data_theme d; transitioning := transitioning d;
     icon_text := icon_text d; toggle_title := Some t;
     notifications := notifications d |}.

Definition set_transitioning (v : bool) (d : Document) : Document :=
  {| loading := loading d; elements := elements d;
     next_element := next_element d; listeners := listeners d;
     data_theme := data_theme d; transitioning := v;
     icon_text := icon_text d; toggle_title := toggle_title d;
     notifications := notifications d |}.

Definition updateToggleIcon (tm : ThemeManager) (b : Browser) : Browser :=
  let b1 :=
    match elements (document b) !! ".theme-toggle .theme-icon" with
    | Some _ =>
        with_document
          (ThemeBasic.set_icon
             (if autoMode tm then IconAuto
              else if Js.str_eqb (theme tm) "dark" then IconMoon else IconSun)
             (document b)) b
    | None => b
    end in
  match elements (document b1) !! ".theme-toggle" with
  | Some _ =>
      with_document
        (set_title
           (if autoMode tm then "Auto theme enabled (long-press to disable)"
            else "Toggle theme (long-press for auto mode)")
           (document b1)) b1
  | None => b1
  end.

Definition applyTheme (theme' : string) (animate : bool) (tm : ThemeManager)
  (b : Browser) : ThemeManager * Browser :=
  let tm' :=
    {| theme := theme'; autoMode := autoMode tm;
       autoCheckInterval := autoCheckInterval tm |} in
  let b1 :=
    if animate then
      setTimeout RemoveTransitioning
        (with_document
           (ThemeBasic.set_data_theme theme'
              (set_transitioning true (document b))) b)
    else with_document (ThemeBasic.set_data_theme theme' (document b)) b in
  let b2 := setStoredTheme theme' b1 in
  (tm', updateToggleIcon tm' b2).

Definition startAutoThemeCheck (tm : ThemeManager) (b : Browser)
  : ThemeManager * Browser :=
  let '(id, b') := setInterval b in
  ({| theme := theme tm; autoMode := autoMode tm;
      autoCheckInterval := Some id |}, b').

(** [stopAutoThemeCheck()]: the handle is tested for truthiness, so a
    handle [0] would not be cleared. *)
Definition stopAutoThemeCheck (tm : ThemeManager) (b : Browser)
  : ThemeManager * Browser :=
  match autoCheckInterval tm with
  | Some (S n) =>
      ({| theme := theme tm; autoMode := autoMode tm;
          autoCheckInterval := None |}, clearInterval (S n) b)
  | _ => (tm, b)
  end.

Definition toggleTheme (tm : ThemeManager) (b : Browser)
  : ThemeManager * Browser :=
  let '(tm1, b1) :=
    if autoMode tm then
      stopAutoThemeCheck
        {| theme := theme tm; autoMode := false;
           autoCheckInterval := autoCheckInterval tm |}
        (setAutoMode false b)
    else (tm, b) in
  let newTheme := if Js.str_eqb (theme tm1) "dark" then "light" else "dark" in
  applyTheme newTheme true tm1 b1.

Definition showNotification (message : string) (b : Browser) : Browser :=
  let d := document b in
  let id := next_element d in
  let d' :=
    {| loading := loading d; elements := elements d;
       next_element := S id; listeners := listeners d;
       data_theme := data_theme d; transitioning := transitioning d;
       icon_text := icon_text d; toggle_title := toggle_title d;
       notifications := notifications d ++ [(id, message)] |} in
  setTimeout (HideNotification id)
    (setTimeout (ShowNotification id) (with_document d' b)).

Definition toggleAutoMode (tm : ThemeManager) (b : Browser)
  : ThemeManager * Browser :=
  let tm1 :=
    {| theme := theme tm; autoMode := negb (autoMode tm);
       autoCheckInterval := autoCheckInterval tm |} in
  let b1 := setAutoMode (autoMode tm1) b in
  if autoMode tm1 then
    let autoTheme := getAutoTheme b1 in
    let '(tm2, b2) := applyTheme autoTheme true tm1 b1 in
    let '(tm3, b3) := startAutoThemeCheck tm2 b2 in
    (tm3, showNotification "Auto theme enabled" b3)
  else
    let '(tm2, b2) := stopAutoThemeCheck tm1 b1 in
    (tm2, showNotification "Auto theme disabled" b2).

(** The callback [startAutoThemeCheck] hands to [setInterval]. *)
Definition autoThemeCheck (tm : ThemeManager) (b : Browser)
  : ThemeManager * Browser :=
  if autoMode tm then
    let autoTheme := getAutoTheme b in
    if Js.str_eqb autoTheme (theme tm) then (tm, b)
    else applyTheme autoTheme true tm b
  else (tm, b).

(** The interval [id] elapses: its callback runs if it is still armed. *)
Definition interval_fires (id : nat) (tm : ThemeManager) (b : Browser)
  : ThemeManager * Browser :=
  if bool_decide (id ∈ intervals b) then autoThemeCheck tm b else (tm, b).

Definition setupToggleButton (tm : ThemeManager) (b : Browser) : Browser :=
  match elements (document b) !! ".theme-toggle" with
  | Some themeToggle =>
      let d := document b in
      let d' :=
        {| loading := loading d; elements := elements d;
           next_element := next_element d;
           listeners :=
             listeners d ++
               ((fun ev => (TheElement themeToggle, ev)) <$>
                  ["click"; "mousedown"; "mouseup"; "mouseleave";
                   "touchstart"; "touchend"]);
           data_theme := data_theme d; transitioning := transitioning d;
           icon_text := icon_text d; toggle_title := toggle_title d;
           notifications := notifications d |} in
      updateToggleIcon tm (with_document d' b)
  | None => b
  end.

Definition init (tm : ThemeManager) (b : Browser) : ThemeManager * Browser :=
  let '(tm1, b1) := applyTheme (theme tm) true tm b in
  let b2 :=
    if loading (document b1)
    then with_document
           (ThemeBasic.add_listener TheDocument "DOMContentLoaded" (document b1))
           b1
    else setupToggleButton tm1 b1 in
  if autoMode tm1 then startAutoThemeCheck tm1 b2 else (tm1, b2).

(** [new ThemeManager()] *)
Definition new_ThemeManager (b : Browser) : ThemeManager * Browser :=
  let '(stored, b1) := getStoredTheme b in
  let theme0 :=
    match stored with
    | Some t => if Js.truthy t then t else getAutoTheme b1
    | None => getAutoTheme b1
    end in
  let '(auto, b2) := getAutoMode b1 in
  init {| theme := theme0; autoMode := auto; autoCheckInterval := None |} b2.

(** The theme [toggleTheme] moves to from [t]. *)
Definition flip (t : string) : string :=
  if Js.str_eqb t "dark" then "light" else "dark".

(** The invariant of a running manager: exactly when auto-mode is on, one
    interval is armed and [autoCheckInterval] holds its handle. *)
Definition consistent (tm : ThemeManager) (b : Browser) : Prop :=
  if autoMode tm
  then ∃ n, autoCheckInterval tm = Some (S n) ∧ intervals b = {[S n]}
  else autoCheckInterval tm = None ∧ intervals b = ∅.

End Theme.

(** ** [scripts/auto-update-watcher.js] *)

Module Watcher.

(** [isAppRunning()]: the argument is what [exec] hands to its callback for
    the [tasklist] command, the error or the standard output. *)
Definition isAppRunning (tasklist : Result string) : bool :=
  match tasklist with
  | Throw _ => false
  | Ok stdout => Js.includes "app.py" stdout || Js.includes "python.exe" stdout
  end.

(** The watcher process: the variable [updateTimeout], the timeouts still
    to fire, the last handle [setTimeout] gave out, the console, and how
    many times [update-file-metadata.js] was started. *)
Record Watcher := {
  updateTimeout : option nat;
  armed : gset nat;
  last_handle : nat;
  console : list (Browser.Level * string);
  metadata_runs : nat
}.

Definition log (l : Browser.Level) (line : string) (w : Watcher) : Watcher :=
  {| updateTimeout := updateTimeout w; armed := armed w;
     last_handle := last_handle w; console := console w ++ [(l, line)];
     metadata_runs := metadata_runs w |}.

(** [updateMetadata()]: the script is started and its outcome logged. *)
Definition updateMetadata (node : Result string) (w : Watcher) : Watcher :=
  let w' :=
    {| updateTimeout := updateTimeout w; armed := armed w;
       last_handle := last_handle w; console := console w;
       metadata_runs := S (metadata_runs w) |} in
  match node with
  | Throw e => log Browser.Error ("Error updating metadata: " +:+ e) w'
  | Ok _ => log Browser.Info "Metadata updated automatically!" w'
  end.

(** The two lines logged when the script starts. *)
Definition start (env : Env) (handle : nat) : Watcher :=
  {| updateTimeout := None; armed := ∅; last_handle := handle;
     console :=
       [(Browser.Info, "Starting file watcher synced with app.py...");
        (Browser.Info,
         "Watching " +:+ notesDir env +:+
         " for PDF file changes (synced with app.py)...")];
     metadata_runs := 0 |}.

(** [filename && filename.endsWith('.pdf')] *)
Definition is_pdf (filename : option string) : bool :=
  match filename with
  | Some name => Js.truthy name && Js.endsWith ".pdf" name
  | None => false
  end.

(** The callback of [fs.watch].  A timeout handle is an object, so
    [if (updateTimeout)] holds whenever one was stored. *)
Definition on_change (eventType : string) (filename : option string)
  (w : Watcher) : Watcher :=
  match filename with
  | Some name =>
      if is_pdf filename then
        let w1 := log Browser.Info ("File " +:+ eventType +:+ ": " +:+ name) w in
        let cleared :=
          match updateTimeout w1 with
          | Some old => armed w1 ∖ {[old]}
          | None => armed w1
          end in
        let handle := S (last_handle w1) in
        {| updateTimeout := Some handle; armed := {[handle]} ∪ cleared;
           last_handle := handle; console := console w1;
           metadata_runs := metadata_runs w1 |}
      else w
  | None => w
  end.

(** The callback given to [setTimeout], with the outcomes of the two
    commands it may run. *)
Definition on_timeout (tasklist node : Result string) (w : Watcher)
  : Watcher :=
  if isAppRunning tasklist then
    updateMetadata node
      (log Browser.Info "App.py detected running - updating metadata..." w)
  else log Browser.Info "App.py not running - skipping metadata update" w.

(** Two seconds after [setTimeout] the timeout [id] elapses: its callback
    runs if it was not cleared, and it will not run again. *)
Definition elapse (id : nat) (tasklist node : Result string) (w : Watcher)
  : Watcher :=
  if bool_decide (id ∈ armed w) then
    on_timeout tasklist node
      {| updateTimeout := updateTimeout w; armed := armed w ∖ {[id]};
         last_handle := last_handle w; console := console w;
         metadata_runs := metadata_runs w |}
  else w.

Inductive Event :=
| Change (eventType : string) (filename : option string)
| Elapse (id : nat) (tasklist node : Result string).

Definition step (w : Watcher) (e : Event) : Watcher :=
  match e with
  | Change eventType filename => on_change eventType filename w
  | Elapse id tasklist node => elapse id tasklist node w
  end.

Definition run (events : list Event) (w : Watcher) : Watcher :=
  fold_left step events w.

Definition is_pdf_change (e : Event) : bool :=
  match e with
  | Change _ filename => is_pdf filename
  | Elapse _ _ _ => false
  end.

End Watcher.

(** ** Concrete pages and managers *)

Module Scenario.
Import Browser.

Definition empty_document : Document :=
  {| loading := false; elements := ∅; next_element := 0; listeners := [];
     data_theme := None; transitioning := false; icon_text := None;
     toggle_title := None; notifications := [] |}.

(** A page with the theme button and its icon. *)
Definition themed_document : Document :=
  {| loading := false;
     elements := <[".theme-toggle" := 1]> (<[".theme-toggle .theme-icon" := 2]> ∅);
     next_element := 3; listeners := [];
     data_theme := None; transitioning := false; icon_text := None;
     toggle_title := None; notifications := [] |}.

Definition page (s : Storage) (h : Z) (d : Document) : Browser :=
  {| localStorage := s; console := []; hour := h; document := d;
     intervals := ∅; timeouts := []; next_timer := 0 |}.

(** Local storage as an earlier visit in auto-mode left it, filled to its
    quota. *)
Definition full_storage : Storage :=
  Available (<["themeAutoMode" := "true"]> (<["theme" := "light"]> ∅)) 27.

(** Local storage holding a theme name that is neither of the two the
    manager writes. *)
Definition sepia_storage : Storage :=
  Available (<["theme" := "sepia"]> ∅) 1000.

Definition roomy_storage : Storage := Available ∅ 1000.

(** A repository checked out at [/repo], the script run from
    [/repo/scripts], with the given entries in [data/notes]. *)
Definition stats0 : Stats :=
  {| st_size := 2048; st_mtime := "2024-03-05T10:15:30.000Z" |}.

Definition folder (items : list (string * Node)) : Node :=
  Directory {| st_size := 4096; st_mtime := "2024-03-05T10:15:30.000Z" |} items.

Definition repo (notes : list (string * Node)) : Env :=
  {| root := "/repo"; cwd := "/repo/scripts";
     disk := folder [("repo", folder [("data", folder [("notes", folder notes)])])] |}.

Definition material_at (p : string) : Material :=
  {| title := "old"; description := "DBMS notes"; path := p; type := "pdf";
     size := "1 KB"; uploadDate := "2024-01-01"; downloadUrl := p;
     keywords := ["dbms"] |}.

(** A catalog with one semester, one branch and one subject. *)
Definition catalog (semester : Z) (branch subject : string)
  (ms : list Material) : Catalog :=
  {| semesters :=
       [{| semester_id := semester;
           branches :=
             [{| branch_id := branch;
                 subjects := [{| name := subject; materials := ms |}] |}] |}] |}.




(** A subject folder with a file the catalog knows, a new PDF, a PDF in a
    folder no subject matches, and a file that is no PDF. *)
Definition dbms_notes : list (string * Node) :=
  [("semester-3",
    folder [("cse",
      folder [("DBMS",
        folder [("old.pdf", File stats0); ("unit 2.pdf", File stats0);
                ("readme.txt", File stats0)]);
              ("misc", folder [("stray.pdf", File stats0)])])])].

(** The catalog for it: one known file, and one record whose file is
    gone. *)
Definition dbms_catalog : Catalog :=
  catalog 3 "cse" "DBMS"
    [material_at "../data/notes/semester-3/cse/DBMS/old.pdf";
     material_at "../data/notes/semester-3/cse/DBMS/lost.pdf"].

End Scenario.

(** ** Notions used to state the properties *)

Section Notions.
Import Metadata.

(** [s] holds the code unit [c]. *)
Definition has_char (c : ascii) (s : string) : bool :=
  Js.includes (String c EmptyString) s.

Definition no_backslash (s : string) : Prop := has_char "\" s = false.

(** What may follow an entry name in a path below it. *)
Definition tail_of_name (t : string) : Prop :=
  t = EmptyString ∨ ∃ r, t = "/" +:+ r.


(** The path [scanForNewFiles] looks up in [existingPaths] for a file. *)
Definition materialPath (env : Env) (f : string * string * Stats) : string :=
  "../" +:+ relativePath env (file_path f).


(** Below a tidy node every file path extends the node's path by a tail
    without backslash, and no path comes twice. *)
Definition node_paths_ok (n : Node) : Prop :=
  ∀ item p, tidy_node n →
    (∀ f, f ∈ files_of_node item p n →
       ∃ t, tail_of_name t ∧ no_backslash t ∧ file_path f = p +:+ t) ∧
    NoDup (file_path <$> files_of_node item p n).

Definition directory_paths_ok (p : string) (items : list (string * Node))
  : Prop :=
  (∀ f, f ∈ files_of_directory p items →
     ∃ nm t, nm ∈ items.*1 ∧ tail_of_name t ∧ no_backslash (nm +:+ t) ∧
             file_path f = p +:+ "/" +:+ nm +:+ t) ∧
  NoDup (file_path <$> files_of_directory p items).

(** An entry name as [readdirSync] returns it. *)
Definition entry_name (nm : string) : Prop :=
  nm ≠ EmptyString ∧ nm ≠ "." ∧ nm ≠ ".." ∧ has_char "/" nm = false.

(** The absolute path with the given segments. *)
Definition absolute_path (segs : list string) : string :=
  Js.join "/" (EmptyString :: segs).

(** The console lines of a run. *)
Definition console_lines (evs : list Event) : list string :=
  flat_map
    (λ e, match e with ConsoleLog l => [l] | WriteFile _ _ => [] end) evs.

End Notions.

(** ** Notions for the further properties *)

Section ScriptNotions.
Import Metadata.



(** What the catalog shows of itself to [findSubjectByPath]: the ids of the
    semesters and branches and the names of the subjects. *)
Definition skeleton (c : Catalog) : list (Z * list (string * list string)) :=
  (λ s, (semester_id s,
         (λ b, (branch_id b, name <$> subjects b)) <$> branches s))
    <$> semesters c.


(** Path resolution through entry names only. *)
Fixpoint descend (cur : Node) (segs : list string) : option Node :=
  match segs with
  | [] => Some cur
  | seg :: rest =>
      match cur with
      | File _ => None
      | Directory _ items =>
          match entry seg items with
          | Some child => descend child rest
          | None => None
          end
      end
  end.

(** Every entry below the node has a name [readdirSync] can return. *)
Fixpoint named_node (n : Node) : Prop :=
  match n with
  | File _ => True
  | Directory _ items =>
      (fix all (l : list (string * Node)) : Prop :=
         match l with
         | [] => True
         | (nm, n') :: rest => entry_name nm ∧ named_node n' ∧ all rest
         end) items
  end.

(** The same for the entries of a directory. *)
Fixpoint named_items (items : list (string * Node)) : Prop :=
  match items with
  | [] => True
  | (nm, n) :: rest => entry_name nm ∧ named_node n ∧ named_items rest
  end.

(** A file found by the walk lies where its path says: the path extends
    the directory's by the entry names on the way down. *)
Definition node_route_ok (n : Node) : Prop :=
  ∀ item p f, tidy_node n → named_node n → f ∈ files_of_node item p n →
    ∃ segs, Forall entry_name segs ∧
            file_path f = fold_left Path.join_entry segs p ∧
            descend n segs = Some (File f.2).

End ScriptNotions.

Section ThemeNotions.
Import Browser Theme.

(** The clock moves on. *)
Definition with_hour (h : Z) (b : Browser) : Browser :=
  {| localStorage := localStorage b; console := console b; hour := h;
     document := document b; intervals := intervals b;
     timeouts := timeouts b; next_timer := next_timer b |}.

(** The states a manager goes through: built on a page without intervals,
    then any sequence of clicks, long presses, interval ticks and clock
    changes. *)
Inductive running : ThemeManager → Browser → Prop :=
| running_new b :
    intervals b = ∅ → running (new_ThemeManager b).1 (new_ThemeManager b).2
| running_toggleTheme tm b :
    running tm b → running (toggleTheme tm b).1 (toggleTheme tm b).2
| running_toggleAutoMode tm b :
    running tm b → running (toggleAutoMode tm b).1 (toggleAutoMode tm b).2
| running_interval id tm b :
    running tm b → running (interval_fires id tm b).1 (interval_fires id tm b).2
| running_clock h tm b :
    running tm b → running tm (with_hour h b).

(** Every item but the theme manager's two reads the same in [b'] as in
    [b]. *)
Definition others_kept (b b' : Browser) : Prop :=
  ∀ key, key ≠ "theme" → key ≠ "themeAutoMode" →
         getItem key (localStorage b') = getItem key (localStorage b).

End ThemeNotions.

Section MenuNotions.
Import Menu.

(** The menu is open when the links carry the class [active]. *)
Definition is_open (p : Page) : bool :=
  contains "active" (navLinks_classList p).

(** The overlay, the button's attribute and the page scroll agree with the
    links. *)
Definition in_step (p : Page) : Prop :=
  contains "active" (overlay_classList p) = is_open p ∧
  aria_expanded p = Some (if is_open p then "true" else "false") ∧
  body_overflow p = (if is_open p then "hidden" else "").

End MenuNotions.

Section WatcherNotions.
Import Watcher.

(** At most the timeout that [updateTimeout] holds is still to fire. *)
Definition debounced (w : Watcher) : Prop :=
  armed w = ∅ ∨ ∃ id, updateTimeout w = Some id ∧ armed w = {[id]}.


End WatcherNotions.

(** * Properties *)

(** ** String primitives on examples *)

Example split_example :
  Js.split "/" "/repo/data/notes/semester-3/cse/DBMS/unit 2.pdf"
  = [""; "repo"; "data"; "notes"; "semester-3"; "cse"; "DBMS"; "unit 2.pdf"].
Proof. reflexivity. Qed.

Example split_long_separator :
  Js.split "data/notes/" "data/notes/a/data/notes/b.pdf" = [""; "a/"; "b.pdf"].
Proof. reflexivity. Qed.

Example parseInt_examples :
  Js.parseInt "3" = Some 3%Z ∧ Js.parseInt "" = None ∧
  Js.parseInt "12abc" = Some 12%Z ∧ Js.parseInt "0x1f" = Some 31%Z ∧
  Js.parseInt "x" = None.
Proof. repeat split; reflexivity. Qed.

Example normalize_examples :
  Path.join "/repo" "data/notes/a.pdf" = "/repo/data/notes/a.pdf" ∧
  Path.join "/repo" "data/../x//y/./z.pdf" = "/repo/x/y/z.pdf" ∧
  Path.normalize "/../a/" = "/a/" ∧ Path.normalize "a/../.." = "..".
Proof. repeat split; reflexivity. Qed.

Example join_entry_examples :
  Path.join "/repo/data/notes" "semester-3"
    = Path.join_entry "/repo/data/notes" "semester-3" ∧
  Path.join "/repo/data/notes/semester-3/cse" "unit 2.pdf"
    = Path.join_entry "/repo/data/notes/semester-3/cse" "unit 2.pdf".
Proof. split; reflexivity. Qed.

Example basename_examples :
  Path.basename "/repo/data/notes/cse/unit 2.pdf" ".pdf" = "unit 2" ∧
  Path.basename "/repo/data/notes/cse/.pdf" ".pdf" = ".pdf".
Proof. repeat split; reflexivity. Qed.

Example formatFileSize_examples :
  Metadata.formatFileSize 1023 = "1023 Bytes" ∧
  Metadata.formatFileSize 1536 = "1.5 KB" ∧
  Metadata.formatFileSize 1048576 = "1 MB" ∧
  Metadata.formatFileSize 123456789 = "117.74 MB" ∧
  Metadata.formatFileSize 1100 = "1.07 KB" ∧
  Metadata.formatFileSize 1099511627776 = "1 undefined".
Proof. repeat split; vm_compute; reflexivity. Qed.

Example generateKeywords_examples :
  Metadata.generateKeywords "Module 3 notes" "Computer Networks"
    = ["cn"; "mod 3"; "notes"] ∧
  Metadata.generateKeywords "unit 12 lab" "DBMS" = ["dbms"; "unit 12"; "lab manual"] ∧
  Metadata.generateKeywords "mod iv" "Physics" = ["mod iv"] ∧
  Metadata.generateKeywords "syllabus" "Graph Theory" = ["lab manual"] ∧
  Metadata.generateKeywords "intro" "Graph Theory" = ["graph"].
Proof. repeat split; vm_compute; reflexivity. Qed.

(** ** [formatFileSize] *)

(** C5: [formatFileSize(0)] is exactly "0 Bytes" and
    [formatFileSize(1024)] is exactly "1 KB".  (At 1024 the source divides
    [Math.log(1024)] by itself, which is 1, and [1024 / 1024 * 100] is 100
    without rounding, so the exact arithmetic of the model is what the
    doubles compute.) *)
Theorem formatFileSize_zero_and_kilobyte :
  Metadata.formatFileSize 0 = "0 Bytes" ∧ Metadata.formatFileSize 1024 = "1 KB".
Proof. split; vm_compute; reflexivity. Qed.

(** ** [updateMaterialMetadata] *)

(** C10: [updateMaterialMetadata] leaves the title, description, path, type,
    downloadUrl and keywords of the material as they were, whether or not
    the file exists; only size and uploadDate can change. *)
Theorem updateMaterialMetadata_frame (env : Env) (m : Material) :
  let m' := (Metadata.updateMaterialMetadata env m).1 in
  title m' = title m ∧ description m' = description m ∧ path m' = path m ∧
  type m' = type m ∧ downloadUrl m' = downloadUrl m ∧
  keywords m' = keywords m.
Proof.
  unfold Metadata.updateMaterialMetadata.
  destruct (statSync env (Metadata.material_file env m)) as [stats|e]; simpl;
    repeat split; reflexivity.
Qed.



Lemma updateMaterialMetadata_path (env : Env) (m : Material) :
  path (Metadata.updateMaterialMetadata env m).1 = path m.
Proof.
  unfold Metadata.updateMaterialMetadata.
  by destruct (statSync env (Metadata.material_file env m)).
Qed.

(** ** The theme manager with auto-switch *)

Section ThemeFacts.
Import Browser Theme.

Lemma hour_setStoredTheme t b : hour (setStoredTheme t b) = hour b.
Proof. unfold setStoredTheme. by destruct (setItem _ _ _). Qed.

Lemma hour_setAutoMode v b : hour (setAutoMode v b) = hour b.
Proof. unfold setAutoMode. by destruct (setItem _ _ _). Qed.

Lemma intervals_setStoredTheme t b :
  intervals (setStoredTheme t b) = intervals b.
Proof. unfold setStoredTheme. by destruct (setItem _ _ _). Qed.

Lemma intervals_setAutoMode v b : intervals (setAutoMode v b) = intervals b.
Proof. unfold setAutoMode. by destruct (setItem _ _ _). Qed.

Lemma intervals_updateToggleIcon tm b :
  intervals (updateToggleIcon tm b) = intervals b.
Proof.
  unfold updateToggleIcon.
  destruct (elements (document b) !! ".theme-toggle .theme-icon"); simpl;
    by destruct (_ !! ".theme-toggle").
Qed.

Lemma localStorage_updateToggleIcon tm b :
  localStorage (updateToggleIcon tm b) = localStorage b.
Proof.
  unfold updateToggleIcon.
  destruct (elements (document b) !! ".theme-toggle .theme-icon"); simpl;
    by destruct (_ !! ".theme-toggle").
Qed.

Lemma getAutoTheme_hour b b' : hour b' = hour b → getAutoTheme b' = getAutoTheme b.
Proof. unfold getAutoTheme. by intros ->. Qed.

(** What [applyTheme] does to the manager. *)
Lemma applyTheme_manager t animate tm b :
  (applyTheme t animate tm b).1
  = {| theme := t; autoMode := autoMode tm;
       autoCheckInterval := autoCheckInterval tm |}.
Proof. reflexivity. Qed.

Lemma intervals_applyTheme t animate tm b :
  intervals (applyTheme t animate tm b).2 = intervals b.
Proof.
  unfold applyTheme; simpl.
  rewrite intervals_updateToggleIcon, intervals_setStoredTheme.
  by destruct animate.
Qed.

Lemma stopAutoThemeCheck_manager tm b :
  theme (stopAutoThemeCheck tm b).1 = theme tm ∧
  autoMode (stopAutoThemeCheck tm b).1 = autoMode tm.
Proof.
  unfold stopAutoThemeCheck. by destruct (autoCheckInterval tm) as [[|n]|].
Qed.

Lemma toggleTheme_theme tm b : theme (toggleTheme tm b).1 = flip (theme tm).
Proof.
  unfold toggleTheme.
  destruct (autoMode tm); [|reflexivity].
  destruct (stopAutoThemeCheck _ _) as [tm1 b1] eqn:E.
  rewrite applyTheme_manager; simpl.
  pose proof (stopAutoThemeCheck_manager
    {| theme := theme tm; autoMode := false;
       autoCheckInterval := autoCheckInterval tm |} (setAutoMode false b)) as [H _].
  rewrite E in H; simpl in H. by rewrite H.
Qed.

Lemma toggleTheme_autoMode tm b : autoMode (toggleTheme tm b).1 = false.
Proof.
  unfold toggleTheme.
  destruct (autoMode tm) eqn:A; [|by rewrite applyTheme_manager].
  destruct (stopAutoThemeCheck _ _) as [tm1 b1] eqn:E.
  rewrite applyTheme_manager; simpl.
  pose proof (stopAutoThemeCheck_manager
    {| theme := theme tm; autoMode := false;
       autoCheckInterval := autoCheckInterval tm |} (setAutoMode false b)) as [_ H].
  by rewrite E in H.
Qed.

End ThemeFacts.

(** C2: the auto-theme computation gives "dark" exactly for the hours
    [h >= 18] or [h < 6] and "light" for every other hour; enabling auto-mode
    applies that theme at once, and the periodic check, while auto-mode is
    on, leaves the manager on that theme. *)
Theorem auto_theme_follows_the_hour :
  (∀ b, Theme.getAutoTheme b = "dark" ↔ (18 ≤ Browser.hour b ∨ Browser.hour b < 6)%Z) ∧
  (∀ b, Theme.getAutoTheme b = "light" ↔ (6 ≤ Browser.hour b < 18)%Z) ∧
  (∀ tm b, Theme.autoMode tm = false →
     Theme.autoMode (Theme.toggleAutoMode tm b).1 = true ∧
     Theme.theme (Theme.toggleAutoMode tm b).1 = Theme.getAutoTheme b ∧
     Browser.data_theme (Browser.document (Theme.toggleAutoMode tm b).2)
       = Some (Theme.getAutoTheme b)) ∧
  (∀ tm b, Theme.autoMode tm = true →
     Theme.theme (Theme.autoThemeCheck tm b).1 = Theme.getAutoTheme b) ∧
  (∀ id tm b, id ∈ Browser.intervals b → Theme.autoMode tm = true →
     Theme.theme (Theme.interval_fires id tm b).1 = Theme.getAutoTheme b).
Proof.
  assert (Hcheck : ∀ tm b, Theme.autoMode tm = true →
     Theme.theme (Theme.autoThemeCheck tm b).1 = Theme.getAutoTheme b).
  { intros tm b A. unfold Theme.autoThemeCheck. rewrite A.
    destruct (Js.str_eqb _ _) eqn:E; [|reflexivity].
    apply bool_decide_eq_true_1 in E. by simpl. }
  split; [|split; [|split; [|split]]].
  - intros b. unfold Theme.getAutoTheme.
    destruct (18 <=? Browser.hour b)%Z eqn:H1; destruct (Browser.hour b <? 6)%Z eqn:H2;
      simpl; split; try discriminate; try lia; reflexivity.
  - intros b. unfold Theme.getAutoTheme.
    destruct (18 <=? Browser.hour b)%Z eqn:H1; destruct (Browser.hour b <? 6)%Z eqn:H2;
      simpl; split; try discriminate; try lia; reflexivity.
  - intros tm b A. unfold Theme.toggleAutoMode. rewrite A; simpl.
    rewrite (getAutoTheme_hour b _ (hour_setAutoMode true b)).
    repeat split.
    unfold Theme.updateToggleIcon; simpl.
    destruct (Browser.elements _ !! ".theme-toggle .theme-icon"); simpl;
      destruct (_ !! ".theme-toggle"); simpl;
      unfold Theme.setStoredTheme; simpl; by destruct (Browser.setItem _ _ _).
  - exact Hcheck.
  - intros id tm b Hid A. unfold Theme.interval_fires.
    rewrite bool_decide_eq_true_2 by done. by apply Hcheck.
Qed.

Lemma auto_theme_follows_the_hour_witness :
  let b := Scenario.page Scenario.roomy_storage 20 Scenario.themed_document in
  let tm := {| Theme.theme := "light"; Theme.autoMode := false;
               Theme.autoCheckInterval := None |} in
  let tm' := {| Theme.theme := "dark"; Theme.autoMode := true;
                Theme.autoCheckInterval := Some 1 |} in
  let b' := Scenario.page Scenario.roomy_storage 7 Scenario.themed_document in
  Theme.theme (Theme.toggleAutoMode tm b).1 = "dark" ∧
  Theme.theme (Theme.autoThemeCheck tm' b').1 = "light".
Proof.
  destruct auto_theme_follows_the_hour as (_ & _ & Hon & Htick & _).
  split.
  - change "dark" with
      (Theme.getAutoTheme
         (Scenario.page Scenario.roomy_storage 20 Scenario.themed_document)).
    apply Hon. reflexivity.
  - change "light" with
      (Theme.getAutoTheme
         (Scenario.page Scenario.roomy_storage 7 Scenario.themed_document)).
    apply Htick. reflexivity.
Defined.

(** ** Toggling the theme *)

Lemma basic_toggleTheme_theme (tm : ThemeBasic.ThemeManager) (b : Browser.Browser) :
  ThemeBasic.theme (ThemeBasic.toggleTheme tm b).1 = Theme.flip (ThemeBasic.theme tm).
Proof. reflexivity. Qed.

Lemma flip_flip (t : string) :
  t = "dark" ∨ t = "light" → Theme.flip (Theme.flip t) = t.
Proof. by intros [-> | ->]. Qed.

(** Whatever the theme was, one toggle lands on "dark" or "light". *)
Lemma flip_range (t : string) : Theme.flip t = "dark" ∨ Theme.flip t = "light".
Proof. unfold Theme.flip. destruct (Js.str_eqb t "dark"); auto. Qed.

(** C3, as the code has it: a manager built over a stored theme that is
    neither "dark" nor "light" keeps that theme, and two toggles from it end
    on "light", not on the theme held before the first call.  Both
    managers behave so. *)
Lemma toggleTheme_twice_from_sepia :
  let b := Scenario.page Scenario.sepia_storage 12 Scenario.themed_document in
  let start := Theme.new_ThemeManager b in
  let once := Theme.toggleTheme start.1 start.2 in
  let twice := Theme.toggleTheme once.1 once.2 in
  let start' := ThemeBasic.new_ThemeManager b in
  let once' := ThemeBasic.toggleTheme start'.1 start'.2 in
  let twice' := ThemeBasic.toggleTheme once'.1 once'.2 in
  (Theme.theme start.1 = "sepia" ∧ Theme.theme twice.1 = "light") ∧
  (ThemeBasic.theme start'.1 = "sepia" ∧ ThemeBasic.theme twice'.1 = "light").
Proof. vm_compute. repeat split; reflexivity. Qed.

(** C3 (amended): from every state whose theme is "dark" or "light",
    whatever auto-mode, storage and page are, two calls of [toggleTheme] in
    succession leave the theme as it was before the first call; this holds
    for the manager with auto-switch and for the one of navigation.js. *)
Theorem toggleTheme_twice_restores_theme :
  (∀ (tm : Theme.ThemeManager) (b : Browser.Browser),
     Theme.theme tm = "dark" ∨ Theme.theme tm = "light" →
     let once := Theme.toggleTheme tm b in
     Theme.theme (Theme.toggleTheme once.1 once.2).1 = Theme.theme tm) ∧
  (∀ (tm : ThemeBasic.ThemeManager) (b : Browser.Browser),
     ThemeBasic.theme tm = "dark" ∨ ThemeBasic.theme tm = "light" →
     let once := ThemeBasic.toggleTheme tm b in
     ThemeBasic.theme (ThemeBasic.toggleTheme once.1 once.2).1
       = ThemeBasic.theme tm).
Proof.
  split; intros tm b H; cbv zeta.
  - rewrite !toggleTheme_theme. by apply flip_flip.
  - rewrite !basic_toggleTheme_theme. by apply flip_flip.
Qed.

Lemma toggleTheme_twice_restores_theme_witness :
  let b := Scenario.page Scenario.full_storage 20 Scenario.themed_document in
  let tm := {| Theme.theme := "dark"; Theme.autoMode := true;
               Theme.autoCheckInterval := Some 1 |} in
  let once := Theme.toggleTheme tm b in
  Theme.theme (Theme.toggleTheme once.1 once.2).1 = "dark".
Proof.
  intros b tm.
  apply (proj1 toggleTheme_twice_restores_theme tm b). left. reflexivity.
Defined.

(** ** Local storage *)

Section StorageFacts.
Import Browser.

Lemma getItem_setItem_eq key value s s' :
  setItem key value s = Ok s' → getItem key s' = Ok (Some value).
Proof.
  destruct s as [|items quota]; simpl; [discriminate|].
  case_decide; [|discriminate]. intros [= <-]. simpl.
  by rewrite lookup_insert_eq.
Qed.

Lemma getItem_setItem_ne key key' value s s' :
  key ≠ key' → setItem key value s = Ok s' → getItem key' s' = getItem key' s.
Proof.
  intros Hne. destruct s as [|items quota]; simpl; [discriminate|].
  case_decide; [|discriminate]. intros [= <-]. simpl.
  by rewrite lookup_insert_ne.
Qed.

Lemma setItem_unavailable key value : setItem key value Unavailable = Throw "SecurityError".
Proof. reflexivity. Qed.

Lemma getItem_setStoredTheme key t b :
  key ≠ "theme" →
  getItem key (localStorage (Theme.setStoredTheme t b)) = getItem key (localStorage b).
Proof.
  intros Hne. unfold Theme.setStoredTheme.
  destruct (setItem "theme" t (localStorage b)) as [s'|e] eqn:E; simpl; [|done].
  by apply (getItem_setItem_ne "theme" key t).
Qed.

Lemma getItem_applyTheme key t animate tm b :
  key ≠ "theme" →
  getItem key (localStorage (Theme.applyTheme t animate tm b).2)
  = getItem key (localStorage b).
Proof.
  intros Hne. unfold Theme.applyTheme; simpl.
  rewrite localStorage_updateToggleIcon, getItem_setStoredTheme by done.
  by destruct animate.
Qed.

End StorageFacts.

(** ** A manual toggle and auto-mode *)

(** C4, as the code has it: a page is opened over a local storage that an
    earlier visit left in auto-mode and that is filled to its quota; the
    manager starts in auto-mode with its interval armed.  [toggleTheme] then
    turns the flag off and clears the interval, but the write of "false" is
    refused, the exception is caught, and the stored value is still "true":
    [getAutoMode] on the page afterwards answers [true]. *)
Lemma toggleTheme_keeps_stored_auto_mode :
  let b := Scenario.page Scenario.full_storage 20 Scenario.themed_document in
  let start := Theme.new_ThemeManager b in
  let after := Theme.toggleTheme start.1 start.2 in
  (Theme.autoMode start.1 = true ∧ Theme.autoCheckInterval start.1 = Some 2) ∧
  (Theme.autoMode after.1 = false ∧ Browser.intervals after.2 = ∅) ∧
  Browser.getItem "themeAutoMode" (Browser.localStorage after.2) = Ok (Some "true") ∧
  (Theme.getAutoMode after.2).1 = true.
Proof. vm_compute. repeat split; reflexivity. Qed.

(** C4 (amended): in every state of a running manager with auto-mode on,
    [toggleTheme] first turns the [autoMode] flag off and stops the periodic
    check (the interval is cleared and its handle forgotten), the theme and
    the page still being as they were, and only then flips the theme; the
    stored value becomes "false" whenever local storage accepts the write,
    and is still "false" after the flip. *)
Theorem toggleTheme_disables_auto_mode (tm : Theme.ThemeManager) (b : Browser.Browser) :
  Theme.autoMode tm = true →
  Theme.consistent tm b →
  let disabled :=
    Theme.stopAutoThemeCheck
      {| Theme.theme := Theme.theme tm; Theme.autoMode := false;
         Theme.autoCheckInterval := Theme.autoCheckInterval tm |}
      (Theme.setAutoMode false b) in
  let after := Theme.toggleTheme tm b in
  (Theme.autoMode disabled.1 = false ∧
   Theme.autoCheckInterval disabled.1 = None ∧
   Browser.intervals disabled.2 = ∅ ∧
   Theme.theme disabled.1 = Theme.theme tm ∧
   Browser.document disabled.2 = Browser.document b ∧
   (∀ stored,
      Browser.setItem "themeAutoMode" "false" (Browser.localStorage b) = Ok stored →
      Browser.localStorage disabled.2 = stored ∧
      Browser.getItem "themeAutoMode" stored = Ok (Some "false"))) ∧
  after = Theme.applyTheme (Theme.flip (Theme.theme tm)) true disabled.1 disabled.2 ∧
  (Theme.autoMode after.1 = false ∧
   Theme.autoCheckInterval after.1 = None ∧
   Browser.intervals after.2 = ∅ ∧
   Theme.theme after.1 = Theme.flip (Theme.theme tm) ∧
   (∀ stored,
      Browser.setItem "themeAutoMode" "false" (Browser.localStorage b) = Ok stored →
      Browser.getItem "themeAutoMode" (Browser.localStorage after.2)
        = Ok (Some "false") ∧
      (Theme.getAutoMode after.2).1 = false)).
Proof.
  intros A C. unfold Theme.consistent in C. rewrite A in C.
  destruct C as (n & Hint & Hset).
  assert (Hdis :
    Theme.stopAutoThemeCheck
      {| Theme.theme := Theme.theme tm; Theme.autoMode := false;
         Theme.autoCheckInterval := Theme.autoCheckInterval tm |}
      (Theme.setAutoMode false b)
    = ({| Theme.theme := Theme.theme tm; Theme.autoMode := false;
          Theme.autoCheckInterval := None |},
       Browser.clearInterval (S n) (Theme.setAutoMode false b))).
  { unfold Theme.stopAutoThemeCheck; simpl. by rewrite Hint. }
  assert (Hafter : Theme.toggleTheme tm b
    = Theme.applyTheme (Theme.flip (Theme.theme tm)) true
        {| Theme.theme := Theme.theme tm; Theme.autoMode := false;
           Theme.autoCheckInterval := None |}
        (Browser.clearInterval (S n) (Theme.setAutoMode false b))).
  { unfold Theme.toggleTheme. rewrite A, Hdis. reflexivity. }
  assert (Hempty :
    Browser.intervals (Browser.clearInterval (S n) (Theme.setAutoMode false b)) = ∅).
  { simpl. rewrite intervals_setAutoMode, Hset. apply difference_diag_L. }
  assert (Hstore : ∀ stored,
    Browser.setItem "themeAutoMode" "false" (Browser.localStorage b) = Ok stored →
    Browser.localStorage (Browser.clearInterval (S n) (Theme.setAutoMode false b))
      = stored).
  { intros stored Hs. simpl. unfold Theme.setAutoMode. by rewrite Hs. }
  cbv zeta. rewrite Hdis, Hafter.
  split; [|split; [reflexivity|]].
  - cbn [fst snd]. split; [reflexivity|]. split; [reflexivity|].
    split; [exact Hempty|]. split; [reflexivity|]. split.
    + simpl. unfold Theme.setAutoMode. by destruct (Browser.setItem _ _ _).
    + intros stored Hs. split; [by apply Hstore|].
      by apply (getItem_setItem_eq _ _ _ _ Hs).
  - split; [reflexivity|]. split; [reflexivity|].
    split; [by rewrite intervals_applyTheme|]. split; [reflexivity|].
    intros stored Hs.
    assert (Hget :
      Browser.getItem "themeAutoMode"
        (Browser.localStorage
           (Theme.applyTheme (Theme.flip (Theme.theme tm)) true
              {| Theme.theme := Theme.theme tm; Theme.autoMode := false;
                 Theme.autoCheckInterval := None |}
              (Browser.clearInterval (S n) (Theme.setAutoMode false b))).2)
      = Ok (Some "false")).
    { rewrite getItem_applyTheme by done. rewrite (Hstore _ Hs).
      by apply (getItem_setItem_eq _ _ _ _ Hs). }
    split; [exact Hget|].
    unfold Theme.getAutoMode. by rewrite Hget.
Qed.

Lemma toggleTheme_disables_auto_mode_witness :
  let b := Scenario.page Scenario.roomy_storage 20 Scenario.themed_document in
  let start := Theme.toggleAutoMode
    {| Theme.theme := "light"; Theme.autoMode := false;
       Theme.autoCheckInterval := None |} b in
  let after := Theme.toggleTheme start.1 start.2 in
  Theme.autoMode start.1 = true ∧
  Theme.autoMode after.1 = false ∧
  Browser.intervals after.2 = ∅ ∧
  Browser.getItem "themeAutoMode" (Browser.localStorage after.2) = Ok (Some "false").
Proof.
  intros b start after.
  assert (A : Theme.autoMode start.1 = true) by reflexivity.
  assert (C : Theme.consistent start.1 start.2).
  { unfold Theme.consistent. rewrite A. exists 1. split; [reflexivity|].
    vm_compute. reflexivity. }
  destruct (toggleTheme_disables_auto_mode start.1 start.2 A C)
    as (_ & _ & Hoff & _ & Hint & _ & Hstored).
  split; [exact A|]. split; [exact Hoff|]. split; [exact Hint|].
  eapply Hstored. vm_compute. reflexivity.
Defined.

(** The invariant holds when the manager is built on a page with no interval
    armed, and every operation keeps it. *)
Lemma intervals_setupToggleButton tm b :
  Browser.intervals (Theme.setupToggleButton tm b) = Browser.intervals b.
Proof.
  unfold Theme.setupToggleButton.
  destruct (Browser.elements (Browser.document b) !! ".theme-toggle"); [|done].
  by rewrite intervals_updateToggleIcon.
Qed.

Lemma consistent_start tm b :
  Browser.intervals b = ∅ → Theme.autoCheckInterval tm = None →
  Theme.consistent
    (if Theme.autoMode tm then Theme.startAutoThemeCheck tm b else (tm, b)).1
    (if Theme.autoMode tm then Theme.startAutoThemeCheck tm b else (tm, b)).2.
Proof.
  intros Hb Hi. unfold Theme.consistent.
  destruct (Theme.autoMode tm) eqn:A; simpl; rewrite A.
  - exists (Browser.next_timer b). split; [done|]. rewrite Hb. apply (right_id_L ∅ (∪)).
  - done.
Qed.

Lemma consistent_new b :
  Browser.intervals b = ∅ →
  Theme.consistent (Theme.new_ThemeManager b).1 (Theme.new_ThemeManager b).2.
Proof.
  intros Hb. unfold Theme.new_ThemeManager.
  destruct (Theme.getStoredTheme b) as [stored b1] eqn:E1.
  assert (Hb1 : Browser.intervals b1 = ∅).
  { unfold Theme.getStoredTheme in E1.
    destruct (Browser.getItem _ _); injection E1 as <- <-; done. }
  destruct (Theme.getAutoMode b1) as [auto b2] eqn:E2.
  assert (Hb2 : b2 = b1).
  { unfold Theme.getAutoMode in E2.
    destruct (Browser.getItem _ _) as [[v|]|]; by injection E2 as <- <-. }
  subst b2. unfold Theme.init, Theme.applyTheme. cbv beta iota zeta.
  apply consistent_start; [|reflexivity].
  match goal with
  | |- context [Browser.loading ?d] => destruct (Browser.loading d)
  end; simpl; rewrite ?intervals_setupToggleButton, intervals_updateToggleIcon,
    intervals_setStoredTheme; exact Hb1.
Qed.

Lemma consistent_toggleTheme tm b :
  Theme.consistent tm b →
  Theme.consistent (Theme.toggleTheme tm b).1 (Theme.toggleTheme tm b).2.
Proof.
  intros C. unfold Theme.consistent in *. rewrite toggleTheme_autoMode.
  unfold Theme.toggleTheme.
  destruct (Theme.autoMode tm) eqn:A.
  - destruct C as (n & Hi & Hs).
    unfold Theme.stopAutoThemeCheck; simpl. rewrite Hi.
    rewrite intervals_applyTheme; simpl.
    rewrite intervals_setAutoMode, Hs. split; [done|]. apply difference_diag_L.
  - destruct C as [Hi Hs]. by rewrite intervals_applyTheme.
Qed.

Lemma consistent_toggleAutoMode tm b :
  Theme.consistent tm b →
  Theme.consistent (Theme.toggleAutoMode tm b).1 (Theme.toggleAutoMode tm b).2.
Proof.
  intros C. unfold Theme.consistent in *. unfold Theme.toggleAutoMode.
  destruct (Theme.autoMode tm) eqn:A; simpl.
  - destruct C as (n & Hi & Hs).
    unfold Theme.stopAutoThemeCheck; simpl. rewrite Hi; simpl.
    rewrite intervals_setAutoMode, Hs. split; [done|]. apply difference_diag_L.
  - destruct C as [Hi Hs].
    eexists. split; [reflexivity|].
    rewrite intervals_updateToggleIcon, intervals_setStoredTheme; simpl.
    rewrite intervals_setAutoMode, Hs. apply (right_id_L ∅ (∪)).
Qed.

Lemma consistent_interval_fires id tm b :
  Theme.consistent tm b →
  Theme.consistent (Theme.interval_fires id tm b).1 (Theme.interval_fires id tm b).2.
Proof.
  intros C. unfold Theme.interval_fires, Theme.autoThemeCheck.
  destruct (bool_decide _); [|done].
  destruct (Theme.autoMode tm) eqn:A; [|done].
  destruct (Js.str_eqb _ _); [done|].
  unfold Theme.consistent in *. rewrite applyTheme_manager, intervals_applyTheme.
  simpl. by rewrite A in *.
Qed.

(** ** Failures of local storage and of DOM queries *)

Section FailureFacts.
Import Browser.

(** [getStoredTheme] answers [null] and warns when local storage throws. *)
Lemma getStoredTheme_failure (b : Browser) (e : string) :
  getItem "theme" (localStorage b) = Throw e →
  Theme.getStoredTheme b
    = (None, print Warn ("localStorage not available: " +:+ e) b) ∧
  ThemeBasic.getStoredTheme b
    = (None, print Warn ("localStorage not available: " +:+ e) b).
Proof.
  intros H. unfold Theme.getStoredTheme, ThemeBasic.getStoredTheme.
  by rewrite H.
Qed.

(** [setStoredTheme] returns, with a warning and the storage as it was. *)
Lemma setStoredTheme_failure (t : string) (b : Browser) (e : string) :
  setItem "theme" t (localStorage b) = Throw e →
  Theme.setStoredTheme t b = print Warn ("localStorage not available: " +:+ e) b ∧
  ThemeBasic.setStoredTheme t b
    = print Warn ("localStorage not available: " +:+ e) b.
Proof.
  intros H. unfold Theme.setStoredTheme, ThemeBasic.setStoredTheme.
  by rewrite H.
Qed.

Lemma setAutoMode_failure (v : bool) (b : Browser) (e : string) :
  setItem "themeAutoMode" (if v then "true" else "false") (localStorage b)
    = Throw e →
  Theme.setAutoMode v b = print Warn ("localStorage not available: " +:+ e) b.
Proof. intros H. unfold Theme.setAutoMode. by rewrite H. Qed.

(** [navUtils.querySelector] answers [null] and reports the error when the
    query throws, whatever the context is. *)
Lemma querySelector_failure (selector : string) (context : Context)
  (b : Browser) (e : string) :
  context selector = Throw e →
  Nav.querySelector selector context b
  = (None,
     print Error
       ("Error querying selector " +:+ Js.quoted selector +:+ ": " +:+ e) b).
Proof. intros H. unfold Nav.querySelector. by rewrite H. Qed.

Lemma querySelector_document (selector : string) (b : Browser) :
  Js.is_empty selector = false →
  Nav.querySelector selector (document_context (document b)) b
  = (elements (document b) !! selector, b).
Proof.
  intros H. unfold Nav.querySelector, document_context. by rewrite H.
Qed.

(** Without the button or without the links the menu does not initialize:
    one error line, no listener, no overlay, and the constructor returns. *)
Lemma new_MobileMenu_absent (b : Browser) :
  elements (document b) !! ".menu-button" = None ∨
  elements (document b) !! ".nav-links" = None →
  Nav.new_MobileMenu b
  = ({| Nav.menuButton := elements (document b) !! ".menu-button";
        Nav.navLinks := elements (document b) !! ".nav-links";
        Nav.overlay := None; Nav.initialized := false |},
     print Error "Menu elements not found or already initialized" b).
Proof.
  intros H. unfold Nav.new_MobileMenu.
  rewrite !querySelector_document by reflexivity.
  unfold Nav.init; simpl.
  destruct H as [-> | ->]; [done|].
  by destruct (elements (document b) !! ".menu-button").
Qed.

Lemma new_MobileMenu_present (b : Browser) (button links : nat) :
  elements (document b) !! ".menu-button" = Some button →
  elements (document b) !! ".nav-links" = Some links →
  Nav.initialized (Nav.new_MobileMenu b).1 = true ∧
  Nav.menuButton (Nav.new_MobileMenu b).1 = Some (next_element (document b)).
Proof.
  intros H1 H2. unfold Nav.new_MobileMenu.
  rewrite !querySelector_document by reflexivity.
  unfold Nav.init; simpl. rewrite H1, H2. unfold Nav.init_elements.
  by destruct (elements (document b) !! ".nav-overlay").
Qed.

End FailureFacts.

(** C8, at the failing input: with local storage disabled, [getAutoMode]
    catches the exception and answers [false] with the console untouched,
    where [getStoredTheme] on the same page adds its warning. *)
Theorem getAutoMode_failure_is_silent (b : Browser.Browser) :
  let b' := Browser.with_storage Browser.Unavailable b in
  Theme.getAutoMode b' = (false, b') ∧
  Browser.console (Theme.getAutoMode b').2 = Browser.console b ∧
  Browser.console (Theme.getStoredTheme b').2
    = Browser.console b ++
        [{| Browser.level := Browser.Warn;
            Browser.text := "localStorage not available: SecurityError" |}].
Proof. repeat split. Qed.

(** ** The offline cache *)

Section OfflineCacheFacts.
Import Browser.
Context {Value : Type}.
Variable JSON_stringify : Value → Result string.
Variable JSON_parse : string → Result Value.
Variable null : Value.

Lemma saveOfflineData_true (key : string) (data : Value) (b b' : Browser) :
  OfflineCache.saveOfflineData JSON_stringify key data b = (true, b') →
  ∃ jsonData stored,
    JSON_stringify data = Ok jsonData ∧
    setItem key jsonData (localStorage b) = Ok stored ∧
    b' = with_storage stored b.
Proof.
  unfold OfflineCache.saveOfflineData.
  destruct (JSON_stringify data) as [jsonData|e]; [|discriminate].
  destruct (setItem key jsonData (localStorage b)) as [stored|e] eqn:E;
    [|discriminate].
  intros [= <-]. by exists jsonData, stored.
Qed.

Lemma loadOfflineData_null (key : string) (b : Browser) :
  (getItem key (localStorage b) = Ok None →
   OfflineCache.loadOfflineData JSON_parse null key b = (null, b)) ∧
  (∀ e, getItem key (localStorage b) = Throw e →
   (OfflineCache.loadOfflineData JSON_parse null key b).1 = null) ∧
  (∀ s e, getItem key (localStorage b) = Ok (Some s) →
   JSON_parse s = Throw e →
   (OfflineCache.loadOfflineData JSON_parse null key b).1 = null).
Proof.
  unfold OfflineCache.loadOfflineData. repeat split.
  - by intros ->.
  - by intros e ->.
  - intros s e -> Hp. rewrite Hp. by destruct (Js.truthy s).
Qed.

End OfflineCacheFacts.

(** C9: the offline cache round-trips.  [JSON_stringify], [JSON_parse]
    and [null] are the platform's; the empty text is not JSON, and a
    JSON-serializable value is one that [JSON_parse] gives back from its
    [JSON_stringify] text.  For every key and every such value, if
    [saveOfflineData] returns [true] then [loadOfflineData] on the resulting
    page returns that value; and [loadOfflineData] returns [null], without
    throwing, when the key is absent, when the stored string does not parse
    and when local storage itself throws. *)
Theorem offline_cache_round_trip {Value : Type}
  (JSON_stringify : Value → Result string) (JSON_parse : string → Result Value)
  (null : Value) (key : string) (data : Value) :
  (∀ v, JSON_parse EmptyString ≠ Ok v) →
  (∀ s, JSON_stringify data = Ok s → JSON_parse s = Ok data) →
  (∀ b b',
     OfflineCache.saveOfflineData JSON_stringify key data b = (true, b') →
     OfflineCache.loadOfflineData JSON_parse null key b' = (data, b')) ∧
  (∀ b,
     (Browser.getItem key (Browser.localStorage b) = Ok None →
      OfflineCache.loadOfflineData JSON_parse null key b = (null, b)) ∧
     (∀ e, Browser.getItem key (Browser.localStorage b) = Throw e →
      (OfflineCache.loadOfflineData JSON_parse null key b).1 = null) ∧
     (∀ s e, Browser.getItem key (Browser.localStorage b) = Ok (Some s) →
      JSON_parse s = Throw e →
      (OfflineCache.loadOfflineData JSON_parse null key b).1 = null)).
Proof.
  intros Hempty Hdata. split.
  - intros b b' Hsave.
    destruct (saveOfflineData_true _ _ _ _ _ Hsave)
      as (jsonData & stored & Hs & Hset & ->).
    unfold OfflineCache.loadOfflineData. simpl.
    rewrite (getItem_setItem_eq _ _ _ _ Hset).
    pose proof (Hdata _ Hs) as Hp.
    destruct jsonData as [|c rest]; [by destruct (Hempty data)|].
    simpl. by rewrite Hp.
  - intros b. apply loadOfflineData_null.
Qed.

Lemma offline_cache_round_trip_witness :
  let b := Scenario.page Scenario.roomy_storage 9 Scenario.empty_document in
  let saved :=
    OfflineCache.saveOfflineData OfflineCache.stringify_scalar "gpa"
      (OfflineCache.SNum 42) b in
  saved.1 = true ∧
  OfflineCache.loadOfflineData OfflineCache.parse_scalar OfflineCache.SNull
    "gpa" saved.2 = (OfflineCache.SNum 42, saved.2) ∧
  OfflineCache.loadOfflineData OfflineCache.parse_scalar OfflineCache.SNull
    "tasks" saved.2 = (OfflineCache.SNull, saved.2).
Proof.
  intros b saved.
  assert (Hempty : ∀ v, OfflineCache.parse_scalar EmptyString ≠ Ok v)
    by (intros v; vm_compute; discriminate).
  assert (Hdata : ∀ s,
    OfflineCache.stringify_scalar (OfflineCache.SNum 42) = Ok s →
    OfflineCache.parse_scalar s = Ok (OfflineCache.SNum 42))
    by (intros s [= <-]; vm_compute; reflexivity).
  split; [reflexivity|]. split.
  - apply (proj1 (offline_cache_round_trip OfflineCache.stringify_scalar
      OfflineCache.parse_scalar OfflineCache.SNull "gpa" (OfflineCache.SNum 42)
      Hempty Hdata) b saved.2).
    reflexivity.
  - apply (proj2 (offline_cache_round_trip OfflineCache.stringify_scalar
      OfflineCache.parse_scalar OfflineCache.SNull "tasks" (OfflineCache.SNum 42)
      Hempty Hdata) saved.2).
    vm_compute. reflexivity.
Defined.

(** ** Strings and paths *)

Section StringFacts.

Lemma append_cons (x : ascii) (a b : string) :
  String x a +:+ b = String x (a +:+ b).
Proof. reflexivity. Qed.

Lemma append_empty_l (b : string) : EmptyString +:+ b = b.
Proof. reflexivity. Qed.

Lemma append_assoc (a b c : string) : (a +:+ b) +:+ c = a +:+ (b +:+ c).
Proof.
  induction a as [|x a IH]; [done|]. by rewrite !append_cons, IH.
Qed.

Lemma append_empty_r (a : string) : a +:+ EmptyString = a.
Proof. induction a as [|x a IH]; [done|]. by rewrite append_cons, IH. Qed.

Lemma length_append (a b : string) :
  String.length (a +:+ b) = String.length a + String.length b.
Proof.
  induction a as [|x a IH]; [done|]. rewrite append_cons. simpl. by rewrite IH.
Qed.

Lemma startsWith_append (a c : string) : Js.startsWith a (a +:+ c) = true.
Proof.
  induction a as [|x a IH]; [done|]. rewrite append_cons. simpl.
  by rewrite bool_decide_eq_true_2.
Qed.

Lemma substring_from_append (a c : string) :
  Js.substring_from (String.length a) (a +:+ c) = c.
Proof.
  induction a as [|x a IH]; [by destruct c|]. by rewrite append_cons.
Qed.

Lemma rev_onto_append (s acc : string) : Js.rev_onto s acc = Js.rev s +:+ acc.
Proof.
  unfold Js.rev. revert acc.
  induction s as [|x s IH]; intros acc; simpl; [done|].
  rewrite (IH (String x acc)), (IH (String x EmptyString)).
  by rewrite append_assoc.
Qed.

(** A string the separator does not occur in is a single piece. *)
Lemma split_aux_absent (sep cur s : string) :
  Js.includes sep s = false →
  Js.split_aux sep 0 cur s = [Js.rev cur +:+ s].
Proof.
  destruct sep as [|y sep]; [by destruct s|].
  revert cur. induction s as [|x s IH]; intros cur H.
  - simpl. by rewrite append_empty_r.
  - cbn [Js.includes] in H. apply orb_false_iff in H as [H1 H2].
    cbn [Js.split_aux]. rewrite H1, IH by done.
    unfold Js.rev at 1. cbn [Js.rev_onto].
    by rewrite rev_onto_append, append_assoc.
Qed.

Lemma has_char_cons (c x : ascii) (s : string) :
  has_char c (String x s) = bool_decide (c = x) || has_char c s.
Proof. unfold has_char; simpl. by rewrite andb_true_r. Qed.

Lemma has_char_append (c : ascii) (a b : string) :
  has_char c (a +:+ b) = has_char c a || has_char c b.
Proof.
  induction a as [|x a IH]; [done|].
  rewrite append_cons, !has_char_cons, IH. by rewrite orb_assoc.
Qed.

Lemma backslashes_to_slashes_id (s : string) :
  has_char "\" s = false → Js.backslashes_to_slashes s = s.
Proof.
  induction s as [|x s IH]; [done|].
  rewrite has_char_cons. intros H. apply orb_false_iff in H as [H1 H2].
  simpl. rewrite IH by done.
  apply bool_decide_eq_false_1 in H1.
  rewrite bool_decide_eq_false_2; [done | congruence].
Qed.

(** Two paths that agree start with the same entry name. *)
Lemma first_name_unique (a b t1 t2 : string) :
  has_char "/" a = false → has_char "/" b = false →
  tail_of_name t1 → tail_of_name t2 →
  a +:+ t1 = b +:+ t2 → a = b.
Proof.
  revert b. induction a as [|x a IH]; intros [|y b] Ha Hb T1 T2 E.
  - done.
  - rewrite has_char_cons in Hb. apply orb_false_iff in Hb as [Hy _].
    apply bool_decide_eq_false_1 in Hy.
    destruct T1 as [-> | [r ->]]; [done|].
    rewrite append_cons in E. cbv in E. congruence.
  - rewrite has_char_cons in Ha. apply orb_false_iff in Ha as [Hx _].
    apply bool_decide_eq_false_1 in Hx.
    destruct T2 as [-> | [r ->]]; [done|].
    rewrite append_cons in E. cbv in E. congruence.
  - rewrite has_char_cons in Ha, Hb.
    apply orb_false_iff in Ha as [_ Ha]. apply orb_false_iff in Hb as [_ Hb].
    rewrite !append_cons in E. injection E as -> E. f_equal. by apply IH.
Qed.

End StringFacts.

(** ** The directory walk *)

Section WalkFacts.
Import Metadata.

Lemma Node_induction (P : Node → Prop) :
  (∀ st, P (File st)) →
  (∀ st items, Forall (λ x, P x.2) items → P (Directory st items)) →
  ∀ n, P n.
Proof.
  intros HF HD. fix IH 1. intros [st | st items].
  - apply HF.
  - apply HD. revert items. fix IHl 1.
    intros [|[nm n'] rest]; constructor; [apply IH | apply IHl].
Qed.

Lemma scanNode_directory env ex item p s items st :
  scanNode env ex item p (Directory s items) st
  = scanDirectory env ex p items st.
Proof.
  revert st. induction items as [|[i n] rest IH]; intros st; [done|].
  simpl. exact (IH _).
Qed.

Lemma files_of_node_directory item p s items :
  files_of_node item p (Directory s items) = files_of_directory p items.
Proof.
  induction items as [|[i n] rest IH]; [done|].
  simpl. f_equal. exact IH.
Qed.

Lemma tidy_node_directory s items :
  tidy_node (Directory s items) ↔ NoDup (items.*1) ∧ tidy_items items.
Proof.
  simpl. apply and_iff_compat_l.
  induction items as [|[i n] rest IH]; [done|].
  simpl. by rewrite IH.
Qed.

(** The walk handles the files of the tree one after the other, in the
    order of [files_of_directory]. *)
Lemma scanNode_fold env ex n :
  ∀ item p st,
    scanNode env ex item p n st
    = fold_left (scan_step env ex) (files_of_node item p n) st.
Proof.
  induction n as [stats | s items IH] using Node_induction; intros item p st.
  - reflexivity.
  - rewrite scanNode_directory, files_of_node_directory.
    revert st. induction IH as [|[i n] rest Hn _ IHrest]; intros st; [done|].
    simpl. rewrite fold_left_app, <- Hn. apply IHrest.
Qed.

Lemma scanDirectory_fold env ex dir items st :
  scanDirectory env ex dir items st
  = fold_left (scan_step env ex) (files_of_directory dir items) st.
Proof.
  revert st. induction items as [|[i n] rest IH]; intros st; [done|].
  simpl. by rewrite fold_left_app, <- scanNode_fold.
Qed.

Lemma plain_name_chars nm :
  plain_name nm → has_char "/" nm = false ∧ no_backslash nm.
Proof. by intros (_ & H1 & H2). Qed.

Lemma tidy_items_name items nm :
  tidy_items items → nm ∈ items.*1 → plain_name nm.
Proof.
  induction items as [|[j m] rest IH]; intros T H; [by apply elem_of_nil in H|].
  simpl in T. destruct T as (Pj & _ & Trest).
  apply elem_of_cons in H as [-> | H]; [done | by apply IH].
Qed.

Lemma directory_paths_from_nodes p items :
  Forall (λ x, node_paths_ok x.2) items →
  NoDup (items.*1) → tidy_items items → directory_paths_ok p items.
Proof.
  intros IH. induction IH as [|[i n] rest Hn _ IHrest]; intros ND T.
  { split; [by intros f Hf%elem_of_nil | constructor]. }
  simpl in T. destruct T as (Pi & Tn & Trest).
  apply NoDup_cons in ND as [Hi ND].
  destruct (IHrest ND Trest) as [Frest NDrest].
  destruct (Hn i (Path.join_entry p i) Tn) as [Fn NDn].
  destruct (plain_name_chars _ Pi) as [Si Bi].
  assert (Fhere : ∀ f, f ∈ files_of_node i (Path.join_entry p i) n →
    ∃ t, tail_of_name t ∧ no_backslash (i +:+ t) ∧
         file_path f = p +:+ "/" +:+ i +:+ t).
  { intros f Hf. destruct (Fn f Hf) as (t & Tt & Bt & Ef).
    exists t. split; [done|]. split.
    - unfold no_backslash. rewrite has_char_append. by rewrite Bi, Bt.
    - rewrite Ef. unfold Path.join_entry. by rewrite !append_assoc. }
  split; simpl.
  - intros f Hf. apply elem_of_app in Hf as [Hf | Hf].
    + destruct (Fhere f Hf) as (t & ? & ? & ?).
      exists i, t. split; [apply elem_of_cons; by left|]. done.
    + destruct (Frest f Hf) as (nm & t & ? & ?).
      exists nm, t. split; [apply elem_of_cons; by right|]. done.
  - rewrite fmap_app. apply NoDup_app. split; [done|]. split; [|done].
    intros x Hx1 Hx2.
    apply list_elem_of_fmap in Hx1 as (f1 & -> & Hf1).
    apply list_elem_of_fmap in Hx2 as (f2 & E & Hf2).
    destruct (Fhere f1 Hf1) as (t1 & T1 & _ & E1).
    destruct (Frest f2 Hf2) as (nm & t2 & Hnm & T2 & _ & E2).
    rewrite E1, E2 in E.
    apply String.app_inj in E. apply (String.app_inj "/") in E.
    assert (i = nm) as ->; [|done].
    apply (first_name_unique i nm t1 t2); try done.
    by apply (plain_name_chars nm), (tidy_items_name rest).
Qed.

Lemma files_of_node_paths n : node_paths_ok n.
Proof.
  induction n as [stats | s items IH] using Node_induction; intros item p T.
  - split.
    + intros f Hf. apply list_elem_of_singleton in Hf as ->.
      exists EmptyString. split; [by left|]. split; [done|].
      by rewrite append_empty_r.
    + simpl. apply NoDup_singleton.
  - rewrite files_of_node_directory.
    apply tidy_node_directory in T as [ND T].
    destruct (directory_paths_from_nodes p items IH ND T) as [Fdir NDdir].
    split; [|done].
    intros f Hf. destruct (Fdir f Hf) as (nm & t & _ & Tt & Bt & Ef).
    exists ("/" +:+ nm +:+ t). split; [right; by eexists|]. split; [|done].
    unfold no_backslash in *. by rewrite has_char_append, Bt.
Qed.

(** The files of a tidy directory: each path is the directory's path, a
    slash and a relative part without backslash; no path comes twice. *)
Lemma files_of_directory_paths s p items :
  tidy_node (Directory s items) →
  (∀ f, f ∈ files_of_directory p items →
     ∃ rel, no_backslash rel ∧ file_path f = p +:+ "/" +:+ rel) ∧
  NoDup (file_path <$> files_of_directory p items).
Proof.
  intros T. apply tidy_node_directory in T as [ND T].
  destruct (directory_paths_from_nodes p items) as [F N]; try done.
  { apply Forall_forall. intros x _. apply files_of_node_paths. }
  split; [|done]. intros f Hf.
  destruct (F f Hf) as (nm & t & _ & _ & B & E). by exists (nm +:+ t).
Qed.

End WalkFacts.

(** ** Paths of the materials the scan creates *)

Section MaterialPathFacts.
Import Metadata.

Lemma relativePath_below (env : Env) (rel : string) :
  no_backslash rel →
  relativePath env (notesDir env +:+ "/" +:+ rel) = "data/notes/" +:+ rel.
Proof.
  intros B. unfold relativePath, notesDir, Path.relative.
  replace ((root env +:+ "/data/notes") +:+ "/" +:+ rel)
    with ((root env +:+ "/") +:+ "data/notes/" +:+ rel)
    by (by rewrite !append_assoc).
  rewrite startsWith_append.
  replace (String.length (root env) + 1) with (String.length (root env +:+ "/"))
    by (by rewrite length_append).
  rewrite substring_from_append.
  apply backslashes_to_slashes_id.
  by rewrite has_char_append, B.
Qed.

Lemma after_notes_single (rel : string) :
  Js.includes "data/notes/" rel = false →
  after_notes ("data/notes/" +:+ rel) = rel.
Proof.
  intros H. unfold after_notes, Js.split.
  rewrite !append_cons, append_empty_l.
  cbn [Js.split_aux Js.startsWith String.length Nat.sub].
  rewrite !bool_decide_eq_true_2 by done. cbn [andb].
  by rewrite split_aux_absent.
Qed.

(** Where the relative path holds ["data/notes/"] only at its start, the
    material created for the file has the path that was looked up. *)
Lemma createMaterialFromFile_path (env : Env) (rel : string) (stats : Stats) :
  no_backslash rel → Js.includes "data/notes/" rel = false →
  path (createMaterialFromFile env (notesDir env +:+ "/" +:+ rel) stats)
  = "../data/notes/" +:+ rel.
Proof.
  intros B H. unfold createMaterialFromFile; simpl.
  by rewrite relativePath_below, after_notes_single.
Qed.

End MaterialPathFacts.

(** ** Pushing a material into the catalog *)

Section CatalogFacts.
Import Metadata.






(** The update of the metadata keeps every path. *)
Lemma all_materials_update (env : Env) (c : Catalog) :
  all_materials (update_catalog env c)
  = (λ m, (updateMaterialMetadata env m).1) <$> all_materials c.
Proof.
  assert (Hflat : ∀ {A B C : Type} (f : A → list B) (g : B → C) (h : A → A)
            (f' : A → list C) (l : list A),
            (∀ x, f' (h x) = g <$> f x) →
            flat_map f' (h <$> l) = g <$> flat_map f l).
  { intros A B C f g h f' l H. induction l as [|x l IH]; [done|].
    rewrite fmap_cons. cbn [flat_map]. by rewrite fmap_app, H, IH. }
  unfold all_materials, update_catalog; simpl.
  apply Hflat. intros sem. unfold semester_materials; simpl.
  apply Hflat. intros br. unfold subject_materials; simpl.
  apply Hflat. intros sub. reflexivity.
Qed.


End CatalogFacts.

(** ** The scan keeps material paths distinct *)

Section ScanFacts.
Import Metadata.

Lemma data_log line st : data (log line st) = data st.
Proof. reflexivity. Qed.








(** The scan writes no file. *)
Lemma written_app (e1 e2 : list Event) : written (e1 ++ e2) = written e1 ++ written e2.
Proof. apply flat_map_app. Qed.

Lemma scan_step_written env ex st f :
  written (events (scan_step env ex st f)) = written (events st).
Proof.
  unfold scan_step, scanFile.
  destruct (Js.endsWith ".pdf" (file_item f)); [|done].
  case_bool_decide; [done|].
  destruct (findSubjectByPath (data st) (file_path f));
    simpl; by rewrite written_app, app_nil_r.
Qed.

Lemma scan_fold_written env ex l st :
  written (events (fold_left (scan_step env ex) l st)) = written (events st).
Proof.
  revert st. induction l as [|f l IH]; intros st; [done|].
  simpl. by rewrite IH, scan_step_written.
Qed.

Lemma update_logs_written (env : Env) (ms : list Material) :
  written ((λ m, (updateMaterialMetadata env m).2) <$> ms) = [].
Proof.
  induction ms as [|m ms IH]; [done|].
  rewrite fmap_cons. change (?x :: ?l) with ([x] ++ l).
  rewrite written_app, IH, app_nil_r.
  unfold updateMaterialMetadata.
  by destruct (statSync env (material_file env m)).
Qed.

(** What a run writes once the scan has gone through. *)
Lemma written_after_scan (env : Env) (scanned : Script) :
  written (events (writeBack env (updateAll env scanned)))
  = written (events scanned) ++ [update_catalog env (data scanned)].
Proof.
  unfold writeBack, updateAll, log; simpl.
  rewrite !written_app, update_logs_written. simpl.
  by rewrite !app_nil_r.
Qed.


End ScanFacts.




(** ** The run as a whole *)

Section RunFacts.
Import Metadata.

Lemma elem_of_written (evs : list Event) (file : string) (content : Catalog) :
  WriteFile file content ∈ evs → content ∈ written evs.
Proof.
  induction evs as [|e evs IH]; intros H; [by apply elem_of_nil in H|].
  change (e :: evs) with ([e] ++ evs). rewrite written_app.
  apply elem_of_app. apply elem_of_cons in H as [<- | H].
  - left. simpl. by left.
  - right. by apply IH.
Qed.

(** A scan that goes through is the fold of [scan_step] over the files of
    the notes directory. *)
Lemma scanForNewFiles_ok (env : Env) (st scanned : Script) :
  scanForNewFiles env st = Ok scanned →
  ∃ s items,
    resolve env (notesDir env) = Some (Directory s items) ∧
    scanned = fold_left (scan_step env (collect_existing (data st)))
                (files_of_directory (notesDir env) items) st.
Proof.
  unfold scanForNewFiles.
  destruct (resolve env (notesDir env)) as [[stats | s items]|]; try discriminate.
  intros [= <-]. exists s, items. split; [done|]. apply scanDirectory_fold.
Qed.

Lemma scanForNewFiles_written (env : Env) (st scanned : Script) :
  scanForNewFiles env st = Ok scanned →
  written (events scanned) = written (events st).
Proof.
  intros H. destruct (scanForNewFiles_ok env st scanned H) as (s & items & _ & ->).
  apply scan_fold_written.
Qed.

Lemma updateAll_written (env : Env) (st : Script) :
  written (events (updateAll env st)) = written (events st).
Proof.
  unfold updateAll; simpl.
  by rewrite written_app, update_logs_written, app_nil_r.
Qed.

End RunFacts.

Example run_over_the_dbms_notes :
  let out := Metadata.main (Scenario.repo Scenario.dbms_notes)
               (Ok Scenario.dbms_catalog) in
  out.1 = Ok () ∧
  console_lines out.2
  = ["Added: unit 2 to DBMS";
     "No subject found for: data/notes/semester-3/cse/misc/stray.pdf";
     "Updated: old - 2 KB";
     "File not found: /repo/data/notes/semester-3/cse/DBMS/lost.pdf";
     "Updated: unit 2 - 2 KB";
     "File metadata updated successfully!"] ∧
  (λ w, path <$> all_materials w) <$> Metadata.written out.2
  = [["../data/notes/semester-3/cse/DBMS/old.pdf";
      "../data/notes/semester-3/cse/DBMS/lost.pdf";
      "../data/notes/semester-3/cse/DBMS/unit 2.pdf"]].
Proof. vm_compute. repeat split; reflexivity. Qed.

(** C7: in every run the catalog file is written at most once; a write
    means that the catalog was read, that the scan went through and that
    every material was updated before, that nothing was written until then,
    and that what is written, to [notes-data.json], is the catalog as the two
    phases left it. *)
Theorem catalog_written_once_at_the_end (env : Env) (parsed : Result Catalog) :
  let out := Metadata.main env parsed in
  length (Metadata.written out.2) ≤ 1 ∧
  (∀ file content, Metadata.WriteFile file content ∈ out.2 →
     ∃ c scanned,
       parsed = Ok c ∧
       Metadata.scanForNewFiles env {| Metadata.data := c; Metadata.events := [] |}
         = Ok scanned ∧
       out.1 = Ok () ∧
       file = jsonPath env ∧
       content = Metadata.data (Metadata.updateAll env scanned) ∧
       all_materials content
         = (λ m, (Metadata.updateMaterialMetadata env m).1)
             <$> all_materials (Metadata.data scanned) ∧
       out.2 = Metadata.events (Metadata.updateAll env scanned)
                 ++ [Metadata.WriteFile file content;
                     Metadata.ConsoleLog "File metadata updated successfully!"] ∧
       Metadata.written (Metadata.events (Metadata.updateAll env scanned)) = []).
Proof.
  cbv zeta. unfold Metadata.main.
  destruct parsed as [c|e]; [|split; [simpl; lia | by intros ?? H%elem_of_nil]].
  destruct (Metadata.scanForNewFiles env _) as [scanned|e] eqn:Hscan;
    [|split; [simpl; lia | by intros ?? H%elem_of_nil]].
  cbn [fst snd].
  assert (Hnone : Metadata.written (Metadata.events (Metadata.updateAll env scanned)) = []).
  { by rewrite updateAll_written, (scanForNewFiles_written _ _ _ Hscan). }
  split.
  - rewrite written_after_scan, (scanForNewFiles_written _ _ _ Hscan). simpl. lia.
  - intros file content Hin.
    assert (Hev : Metadata.events (Metadata.writeBack env (Metadata.updateAll env scanned))
      = Metadata.events (Metadata.updateAll env scanned)
          ++ [Metadata.WriteFile (jsonPath env)
                (Metadata.data (Metadata.updateAll env scanned));
              Metadata.ConsoleLog "File metadata updated successfully!"]).
    { unfold Metadata.writeBack, Metadata.log; simpl. by rewrite <- !app_assoc. }
    rewrite Hev in Hin. apply elem_of_app in Hin as [Hin | Hin].
    { apply elem_of_written in Hin. rewrite Hnone in Hin.
      by apply elem_of_nil in Hin. }
    apply elem_of_cons in Hin as [[= -> ->] | Hin];
      [|apply list_elem_of_singleton in Hin; discriminate].
    exists c, scanned. repeat split; try done.
    simpl. apply all_materials_update.
Qed.

Lemma catalog_written_once_at_the_end_witness :
  length (Metadata.written
            (Metadata.main (Scenario.repo Scenario.dbms_notes)
               (Ok Scenario.dbms_catalog)).2) ≤ 1 ∧
  length (Metadata.written
            (Metadata.main (Scenario.repo Scenario.dbms_notes)
               (Throw "SyntaxError")).2) ≤ 1.
Proof.
  split.
  - exact (proj1 (catalog_written_once_at_the_end
                    (Scenario.repo Scenario.dbms_notes) (Ok Scenario.dbms_catalog))).
  - exact (proj1 (catalog_written_once_at_the_end
                    (Scenario.repo Scenario.dbms_notes) (Throw "SyntaxError"))).
Defined.



(** ** [path.join] on the paths of the walk *)

Section JoinFacts.

Lemma join_cons (sep x : string) (l : list string) :
  l ≠ [] → Js.join sep (x :: l) = x +:+ sep +:+ Js.join sep l.
Proof. by destruct l. Qed.

Lemma join_snoc (sep b : string) (l : list string) :
  l ≠ [] → Js.join sep (l ++ [b]) = Js.join sep l +:+ sep +:+ b.
Proof.
  induction l as [|x l IH]; [done|]. intros _.
  destruct l as [|y l]; [done|].
  change ((x :: y :: l) ++ [b]) with (x :: ((y :: l) ++ [b])).
  rewrite (join_cons sep x ((y :: l) ++ [b])) by done.
  rewrite IH by done. rewrite (join_cons sep x (y :: l)) by done.
  by rewrite !append_assoc.
Qed.

Lemma split_aux_no_slash (x cur rest : string) :
  has_char "/" x = false →
  Js.split_aux "/" 0 cur (x +:+ rest)
  = Js.split_aux "/" 0 (Js.rev_onto x cur) rest.
Proof.
  revert cur. induction x as [|c x IH]; intros cur H; [done|].
  rewrite has_char_cons in H. apply orb_false_iff in H as [Hc Hx].
  rewrite append_cons. cbn [Js.split_aux Js.startsWith Js.rev_onto].
  rewrite Hc. cbn [andb]. by apply IH.
Qed.

Lemma rev_append (a b : string) : Js.rev (a +:+ b) = Js.rev b +:+ Js.rev a.
Proof.
  induction a as [|x a IH].
  - by rewrite append_empty_l, append_empty_r.
  - rewrite append_cons. unfold Js.rev. cbn [Js.rev_onto].
    rewrite (rev_onto_append (a +:+ b)), (rev_onto_append a), IH.
    by rewrite append_assoc.
Qed.

Lemma rev_involutive (s : string) : Js.rev (Js.rev s) = s.
Proof.
  induction s as [|c s IH]; [done|].
  change (String c s) with (String c EmptyString +:+ s) at 1.
  rewrite rev_append, rev_append, IH. reflexivity.
Qed.

Lemma split_join (x : string) (l : list string) (cur : string) :
  has_char "/" x = false → Forall (λ y, has_char "/" y = false) l →
  Js.split_aux "/" 0 cur (Js.join "/" (x :: l)) = (Js.rev cur +:+ x) :: l.
Proof.
  intros Hx Hl. revert x cur Hx.
  induction Hl as [|y l Hy Hl IH]; intros x cur Hx.
  - simpl. by apply split_aux_absent.
  - rewrite join_cons by done. rewrite split_aux_no_slash by done.
    rewrite append_cons, append_empty_l.
    cbn [Js.split_aux Js.startsWith String.length Nat.sub].
    rewrite bool_decide_eq_true_2 by done. cbn [andb].
    rewrite IH by done.
    by rewrite rev_onto_append, rev_append, rev_involutive.
Qed.

Lemma normalize_steps (l acc : list string) :
  Forall entry_name l →
  fold_left (Path.normalize_step true) l acc = reverse l ++ acc.
Proof.
  intros Hl. revert acc. induction Hl as [|x l Hx Hl IH]; intros acc; [done|].
  destruct Hx as (H1 & H2 & H3 & _).
  cbn [fold_left]. rewrite IH, reverse_cons, <- app_assoc.
  f_equal. unfold Path.normalize_step, Js.str_eqb.
  by rewrite !bool_decide_eq_false_2.
Qed.

Lemma startsWith_slash_rev (s : string) :
  s ≠ EmptyString → has_char "/" s = false →
  ∀ t, Js.startsWith "/" (Js.rev s +:+ t) = false.
Proof.
  induction s as [|c s IH]; [done|]. intros _ H t.
  rewrite has_char_cons in H. apply orb_false_iff in H as [Hc Hs].
  change (String c s) with (String c EmptyString +:+ s).
  rewrite rev_append, append_assoc.
  destruct s as [|d s].
  - simpl. by rewrite Hc.
  - by apply IH.
Qed.

Lemma endsWith_slash_join (l : list string) (x : string) :
  entry_name x → Js.endsWith "/" (Js.join "/" (l ++ [x])) = false.
Proof.
  intros (Hx & _ & _ & Hs). unfold Js.endsWith.
  destruct l as [|y l].
  - simpl. rewrite <- (append_empty_r (Js.rev x)).
    by apply startsWith_slash_rev.
  - rewrite join_snoc by done. rewrite <- append_assoc, rev_append.
    by apply startsWith_slash_rev.
Qed.

(** An absolute path made of entry names is normalized. *)
Lemma normalize_absolute_path (l : list string) :
  l ≠ [] → Forall entry_name l →
  Path.normalize (absolute_path l) = absolute_path l.
Proof.
  intros Hne Hl. unfold Path.normalize, absolute_path.
  assert (Hsplit : Js.split "/" (Js.join "/" (EmptyString :: l)) = EmptyString :: l).
  { unfold Js.split. rewrite split_join; [done | done |].
    eapply Forall_impl; [exact Hl|]. by intros y (_ & _ & _ & H). }
  rewrite Hsplit. cbn [fold_left].
  replace (Path.normalize_step true [] EmptyString) with (@nil string) by done.
  assert (Habs : Js.startsWith "/" (Js.join "/" (EmptyString :: l)) = true).
  { rewrite join_cons by done. by rewrite append_empty_l. }
  rewrite Habs, normalize_steps, app_nil_r, reverse_involutive by done.
  assert (Hlast : ∃ l' x, l = l' ++ [x] ∧ entry_name x).
  { clear -Hne Hl. induction l as [|x l' _] using rev_ind; [done|].
    exists l', x. split; [done|].
    apply Forall_app in Hl as [_ Hx]. by apply Forall_inv in Hx. }
  destruct Hlast as (l' & x & El & Hx).
  assert (Htrail : Js.endsWith "/" (Js.join "/" (EmptyString :: l)) = false).
  { rewrite El. change (EmptyString :: l' ++ [x]) with ((EmptyString :: l') ++ [x]).
    by apply endsWith_slash_join. }
  rewrite Htrail.
  assert (Hbody : Js.is_empty (Js.join "/" l) = false).
  { destruct l as [|y l0]; [done|].
    apply Forall_inv in Hl as (Hy & _).
    destruct l0; [by destruct y|]. rewrite join_cons by done. by destruct y. }
  rewrite Hbody, append_empty_r. by rewrite join_cons.
Qed.

(** [path.join(dir, item)] of the walk is the plain concatenation
    [join_entry]: for a directory given by its entry names and an entry name
    [item], normalizing [dir + "/" + item] changes nothing. *)
Lemma join_entry_is_join (segs : list string) (item : string) :
  Forall entry_name segs → entry_name item →
  Path.join (absolute_path segs) item = Path.join_entry (absolute_path segs) item.
Proof.
  intros Hsegs Hitem. unfold Path.join, Path.join_entry.
  assert (E : absolute_path segs +:+ "/" +:+ item = absolute_path (segs ++ [item])).
  { unfold absolute_path.
    change (EmptyString :: segs ++ [item]) with ((EmptyString :: segs) ++ [item]).
    by rewrite join_snoc. }
  rewrite E. apply normalize_absolute_path.
  - by destruct segs.
  - apply Forall_app. split; [done|]. by apply Forall_singleton.
Qed.

End JoinFacts.

(** * Further properties of the metadata script *)

(** ** Sizes below one kilobyte *)

Lemma show_hundredths_whole (n : N) :
  Metadata.show_hundredths (100 * n) = Js.of_N n.
Proof.
  unfold Metadata.show_hundredths.
  replace (100 * n mod 100)%N with 0%N
    by (symmetry; rewrite N.mul_comm; apply N.Div0.mod_mul).
  replace (100 * n / 100)%N with n
    by (symmetry; rewrite N.mul_comm; apply N.div_mul; lia).
  reflexivity.
Qed.

(** X1: a size of 1 to 1023 bytes is printed as the number of bytes
    followed by " Bytes", with no rounding and no fraction. *)
Theorem formatFileSize_below_kilobyte (bytes : N) :
  (0 < bytes < 1024)%N →
  Metadata.formatFileSize bytes = Js.of_N bytes +:+ " Bytes".
Proof.
  intros [Hpos Hlt]. unfold Metadata.formatFileSize.
  rewrite (proj2 (N.eqb_neq bytes 0)) by lia.
  assert (Hlog : (N.log2 bytes / 10 = 0)%N).
  { apply N.div_small. apply N.log2_lt_pow2; [done|]. exact Hlt. }
  cbv zeta. rewrite Hlog.
  replace ((200 * bytes + 1024 ^ 0) / (2 * 1024 ^ 0))%N with (100 * bytes)%N.
  - by rewrite show_hundredths_whole.
  - change (1024 ^ 0)%N with 1%N.
    apply (N.div_unique _ _ _ 1%N); lia.
Qed.

Lemma formatFileSize_below_kilobyte_witness :
  Metadata.formatFileSize 512 = "512 Bytes".
Proof. apply (formatFileSize_below_kilobyte 512). lia. Defined.

(** ** Keywords *)

Section KeywordFacts.
Import Metadata.




















End KeywordFacts.


(** ** Matching a file to a subject *)

Section SubjectFacts.
Import Metadata.



Lemma find_index_fmap {A B : Type} (f : A → B) (p : A → bool) (q : B → bool)
  (l : list A) :
  (∀ x, p x = q (f x)) → find_index p l = find_index q (f <$> l).
Proof.
  intros H. induction l as [|a l IH]; [done|].
  rewrite fmap_cons. simpl. by rewrite H, IH.
Qed.

Lemma subject_matches_name (folder : string) (s : Subject) :
  subject_matches folder s
  = subject_matches folder {| name := name s; materials := [] |}.
Proof. reflexivity. Qed.

(** [findSubjectByPath] reads nothing but the skeleton. *)
Lemma findSubjectByPath_skeleton (c1 c2 : Catalog) (p : string) :
  skeleton c1 = skeleton c2 → findSubjectByPath c1 p = findSubjectByPath c2 p.
Proof.
  intros Hsk. unfold findSubjectByPath.
  destruct (List.find (Js.startsWith "semester-") _) as [semesterMatch|];
    [|done]. simpl.
  destruct (List.find _ _) as [branchMatch|]; [|done]. simpl.
  destruct (second_to_last _) as [subjectMatch|]; [|done]. simpl.
  destruct (_ || _); [done|].
  destruct (_ ≫= Js.parseInt) as [n|]; [|done]. simpl.
  rewrite (find_index_fmap
    (λ s, (semester_id s,
           (λ b, (branch_id b, name <$> subjects b)) <$> branches s))
    _ (λ x, bool_decide (x.1 = n)) (semesters c1)) by done.
  rewrite (find_index_fmap
    (λ s, (semester_id s,
           (λ b, (branch_id b, name <$> subjects b)) <$> branches s))
    _ (λ x, bool_decide (x.1 = n)) (semesters c2)) by done.
  fold (skeleton c1) (skeleton c2). rewrite Hsk.
  destruct (find_index _ (skeleton c2)) as [i|]; [|done]. simpl.
  assert (Hi : (λ s, (semester_id s,
             (λ b, (branch_id b, name <$> subjects b)) <$> branches s))
            <$> semesters c1 !! i
          = (λ s, (semester_id s,
             (λ b, (branch_id b, name <$> subjects b)) <$> branches s))
            <$> semesters c2 !! i).
  { rewrite <- !list_lookup_fmap. fold (skeleton c1) (skeleton c2).
    by rewrite Hsk. }
  destruct (semesters c1 !! i) as [s1|], (semesters c2 !! i) as [s2|];
    try done. simpl in *. injection Hi as _ Hbr.
  rewrite (find_index_fmap (λ b, (branch_id b, name <$> subjects b))
    _ (λ x, Js.str_eqb x.1 branchMatch) (branches s1)) by done.
  rewrite (find_index_fmap (λ b, (branch_id b, name <$> subjects b))
    _ (λ x, Js.str_eqb x.1 branchMatch) (branches s2)) by done.
  rewrite Hbr.
  destruct (find_index _ _) as [j|]; [|done]. simpl.
  assert (Hj : (λ b, (branch_id b, name <$> subjects b)) <$> branches s1 !! j
             = (λ b, (branch_id b, name <$> subjects b)) <$> branches s2 !! j).
  { rewrite <- !list_lookup_fmap. by rewrite Hbr. }
  destruct (branches s1 !! j) as [b1|], (branches s2 !! j) as [b2|];
    try done. simpl in *. injection Hj as _ Hsub.
  rewrite (find_index_fmap name _
    (λ x, subject_matches (Js.toLowerCase subjectMatch)
            {| name := x; materials := [] |}) (subjects b1)) by done.
  rewrite (find_index_fmap name _
    (λ x, subject_matches (Js.toLowerCase subjectMatch)
            {| name := x; materials := [] |}) (subjects b2)) by done.
  by rewrite Hsub.
Qed.

Lemma fmap_alter_same {A B : Type} (f : A → B) (g : A → A) (i : nat)
  (l : list A) :
  (∀ x, f (g x) = f x) → f <$> alter g i l = f <$> l.
Proof.
  intros H. revert i. induction l as [|a l IH]; intros [|i]; try done.
  - change (alter g 0 (a :: l)) with (g a :: l). by rewrite !fmap_cons, H.
  - change (alter g (S i) (a :: l)) with (a :: alter g i l).
    by rewrite !fmap_cons, IH.
Qed.

Lemma skeleton_push (ref : SubjectRef) (m : Material) (c : Catalog) :
  skeleton (push_material ref m c) = skeleton c.
Proof.
  destruct ref as [[i j] k]. unfold skeleton, push_material; simpl.
  apply fmap_alter_same. intros s; simpl. f_equal.
  apply fmap_alter_same. intros b; simpl. f_equal.
  by apply fmap_alter_same.
Qed.

Lemma skeleton_update (env : Env) (c : Catalog) :
  skeleton (update_catalog env c) = skeleton c.
Proof.
  unfold skeleton, update_catalog; simpl.
  rewrite <- list_fmap_compose. apply list_fmap_ext. intros _ s _; simpl.
  f_equal. rewrite <- list_fmap_compose. apply list_fmap_ext. intros _ b _; simpl.
  f_equal. rewrite <- list_fmap_compose. by apply list_fmap_ext.
Qed.

End SubjectFacts.



(** X4: which subject a path is matched to does not depend on the
    materials of the catalog: neither a push into a subject nor the update of
    the metadata changes any answer of [findSubjectByPath]. *)
Theorem findSubjectByPath_ignores_materials (env : Env) (c : Catalog)
  (ref : Metadata.SubjectRef) (m : Material) (p : string) :
  Metadata.findSubjectByPath (Metadata.push_material ref m c) p
    = Metadata.findSubjectByPath c p ∧
  Metadata.findSubjectByPath (Metadata.update_catalog env c) p
    = Metadata.findSubjectByPath c p.
Proof.
  split; apply findSubjectByPath_skeleton;
    [apply skeleton_push | apply skeleton_update].
Qed.

(** ** Running the script again *)

Section RerunFacts.
Import Metadata.










(** [updateMaterialMetadata] looks only at the path, which it keeps: a
    second update gives what the first gave. *)
Lemma updateMaterialMetadata_again (env : Env) (m : Material) :
  (updateMaterialMetadata env (updateMaterialMetadata env m).1).1
  = (updateMaterialMetadata env m).1.
Proof.
  assert (Hfile : material_file env (updateMaterialMetadata env m).1
                  = material_file env m).
  { unfold material_file. by rewrite updateMaterialMetadata_path. }
  unfold updateMaterialMetadata at 1. rewrite Hfile.
  unfold updateMaterialMetadata.
  by destruct (statSync env (material_file env m)) as [st|e].
Qed.

Lemma update_catalog_again (env : Env) (c : Catalog) :
  update_catalog env (update_catalog env c) = update_catalog env c.
Proof.
  unfold update_catalog; simpl. f_equal.
  rewrite <- list_fmap_compose. apply list_fmap_ext. intros _ s _.
  unfold update_semester; simpl. f_equal.
  rewrite <- list_fmap_compose. apply list_fmap_ext. intros _ b _.
  unfold update_branch; simpl. f_equal.
  rewrite <- list_fmap_compose. apply list_fmap_ext. intros _ sub _.
  unfold update_subject; simpl. f_equal.
  rewrite <- list_fmap_compose. apply list_fmap_ext. intros _ m _.
  apply updateMaterialMetadata_again.
Qed.



End RerunFacts.

(** X5: updating the metadata twice is updating it once:
    [updateMaterialMetadata] reads only the path of the material, which it
    does not change, so on the same files a second pass over the catalog
    changes nothing. *)
Theorem update_is_idempotent (env : Env) (c : Catalog) (m : Material) :
  (Metadata.updateMaterialMetadata env
     (Metadata.updateMaterialMetadata env m).1).1
    = (Metadata.updateMaterialMetadata env m).1 ∧
  Metadata.data (Metadata.updateAll env
     (Metadata.updateAll env {| Metadata.data := c; Metadata.events := [] |}))
    = Metadata.data
        (Metadata.updateAll env {| Metadata.data := c; Metadata.events := [] |}).
Proof.
  split; [apply updateMaterialMetadata_again|].
  simpl. apply update_catalog_again.
Qed.



Lemma dbms_notes_in_place :
  resolve (Scenario.repo Scenario.dbms_notes)
    (notesDir (Scenario.repo Scenario.dbms_notes))
  = Some (Scenario.folder Scenario.dbms_notes) ∧
  Metadata.tidy_node (Scenario.folder Scenario.dbms_notes) ∧
  (∀ f, f ∈ Metadata.files_of_directory
              (notesDir (Scenario.repo Scenario.dbms_notes)) Scenario.dbms_notes →
        Js.endsWith ".pdf" (Metadata.file_item f) = true →
        Metadata.notes_prefix_once (Scenario.repo Scenario.dbms_notes)
          (Metadata.file_path f)).
Proof.
  split; [vm_compute; reflexivity|]. split.
  - simpl. repeat split; try done; compute_done.
  - intros f Hf _. apply list_elem_of_In in Hf. simpl in Hf.
    destruct Hf as [<- | [<- | [<- | [<- | []]]]]; vm_compute; reflexivity.
Qed.



(** * Further properties of the theme manager *)

Section ThemeMoreFacts.
Import Browser Theme.

Lemma hour_updateToggleIcon tm b : hour (updateToggleIcon tm b) = hour b.
Proof.
  unfold updateToggleIcon.
  destruct (elements (document b) !! ".theme-toggle .theme-icon"); simpl;
    by destruct (_ !! ".theme-toggle").
Qed.

Lemma hour_applyTheme t animate tm b :
  hour (applyTheme t animate tm b).2 = hour b.
Proof.
  unfold applyTheme; simpl.
  rewrite hour_updateToggleIcon, hour_setStoredTheme. by destruct animate.
Qed.

Lemma init_manager tm b :
  theme (init tm b).1 = theme tm ∧ autoMode (init tm b).1 = autoMode tm.
Proof.
  unfold init, applyTheme. cbv beta iota zeta. cbn [autoMode theme].
  by destruct (autoMode tm).
Qed.

Lemma getStoredTheme_storage b :
  localStorage (getStoredTheme b).2 = localStorage b ∧
  hour (getStoredTheme b).2 = hour b.
Proof. unfold getStoredTheme. by destruct (getItem _ _). Qed.

Lemma getAutoMode_browser b : (getAutoMode b).2 = b.
Proof. unfold getAutoMode. by destruct (getItem _ _) as [[v|]|]. Qed.

(** What the constructor restores. *)
Lemma new_ThemeManager_restores b :
  theme (new_ThemeManager b).1
    = match getItem "theme" (localStorage b) with
      | Ok (Some t) => if Js.truthy t then t else getAutoTheme b
      | _ => getAutoTheme b
      end ∧
  autoMode (new_ThemeManager b).1 = (getAutoMode b).1.
Proof.
  unfold new_ThemeManager.
  destruct (getStoredTheme b) as [stored b1] eqn:E1.
  pose proof (getStoredTheme_storage b) as [Hs Hh]. rewrite E1 in Hs, Hh.
  simpl in Hs, Hh.
  destruct (getAutoMode b1) as [auto b2] eqn:E2.
  match goal with
  | |- context [init ?m b2] => pose proof (init_manager m b2) as [Ht Ha]
  end.
  rewrite Ht, Ha. cbn [theme autoMode]. split.
  - unfold getStoredTheme in E1. rewrite (getAutoTheme_hour b b1 Hh).
    destruct (getItem "theme" (localStorage b)) as [[t|]|];
      by injection E1 as <- <-.
  - unfold getAutoMode in *. rewrite Hs in E2.
    destruct (getItem "themeAutoMode" (localStorage b)) as [[v|]|];
      by injection E2 as <- <-.
Qed.

End ThemeMoreFacts.

(** X8: never more than one auto-check interval.  In every state a manager
    goes through, an interval is armed exactly when auto-mode is on, it is
    the one whose handle the manager holds, and with auto-mode off no
    interval is armed. *)
Theorem running_manager_has_one_interval (tm : Theme.ThemeManager)
  (b : Browser.Browser) :
  running tm b →
  Theme.consistent tm b ∧ base.size (Browser.intervals b) ≤ 1 ∧
  (Theme.autoMode tm = false → Browser.intervals b = ∅).
Proof.
  intros R.
  assert (C : Theme.consistent tm b).
  { induction R.
    - by apply consistent_new.
    - by apply consistent_toggleTheme.
    - by apply consistent_toggleAutoMode.
    - by apply consistent_interval_fires.
    - exact IHR. }
  split; [exact C|]. unfold Theme.consistent in C.
  destruct (Theme.autoMode tm).
  - destruct C as (n & _ & ->). split; [|done]. by rewrite size_singleton.
  - destruct C as [_ ->]. split; [|done]. rewrite size_empty; lia.
Qed.

Lemma running_manager_has_one_interval_witness :
  let b := Scenario.page Scenario.roomy_storage 20 Scenario.themed_document in
  let start := Theme.new_ThemeManager b in
  let auto := Theme.toggleAutoMode start.1 start.2 in
  let later := Theme.interval_fires 2 auto.1 (with_hour 7 auto.2) in
  Theme.consistent later.1 later.2 ∧ base.size (Browser.intervals later.2) ≤ 1 ∧
  (Theme.autoMode later.1 = false → Browser.intervals later.2 = ∅).
Proof.
  intros b start auto later.
  apply (running_manager_has_one_interval later.1 later.2).
  apply running_interval, running_clock, running_toggleAutoMode, running_new.
  reflexivity.
Defined.

(** X9: what was stored is restored on the next page load.  After
    [applyTheme] with a theme local storage accepts, a new manager starts
    with that theme; after [setAutoMode] with a flag local storage accepts,
    a new manager starts with that flag. *)
Theorem stored_settings_are_restored (tm : Theme.ThemeManager)
  (b : Browser.Browser) (t : string) (animate v : bool) :
  (∀ stored,
     Browser.setItem "theme" t (Browser.localStorage b) = Ok stored →
     Js.truthy t = true →
     Theme.theme
       (Theme.new_ThemeManager (Theme.applyTheme t animate tm b).2).1 = t) ∧
  (∀ stored,
     Browser.setItem "themeAutoMode" (if v then "true" else "false")
       (Browser.localStorage b) = Ok stored →
     Theme.autoMode (Theme.new_ThemeManager (Theme.setAutoMode v b)).1 = v).
Proof.
  split; intros stored Hset.
  - intros Ht.
    destruct (new_ThemeManager_restores (Theme.applyTheme t animate tm b).2)
      as [-> _].
    assert (Hstore : Browser.localStorage (Theme.applyTheme t animate tm b).2
                     = stored).
    { unfold Theme.applyTheme; simpl.
      rewrite localStorage_updateToggleIcon. unfold Theme.setStoredTheme.
      destruct animate; simpl; by rewrite Hset. }
    by rewrite Hstore, (getItem_setItem_eq _ _ _ _ Hset), Ht.
  - destruct (new_ThemeManager_restores (Theme.setAutoMode v b)) as [_ ->].
    unfold Theme.getAutoMode, Theme.setAutoMode. rewrite Hset. simpl.
    rewrite (getItem_setItem_eq _ _ _ _ Hset). by destruct v.
Qed.

Lemma stored_settings_are_restored_witness :
  let b := Scenario.page Scenario.roomy_storage 9 Scenario.themed_document in
  let tm := {| Theme.theme := "light"; Theme.autoMode := false;
               Theme.autoCheckInterval := None |} in
  Theme.theme (Theme.new_ThemeManager (Theme.applyTheme "dark" true tm b).2).1
    = "dark" ∧
  Theme.autoMode (Theme.new_ThemeManager (Theme.setAutoMode true b)).1 = true.
Proof.
  intros b tm. split.
  - eapply (proj1 (stored_settings_are_restored tm b "dark" true true));
      vm_compute; reflexivity.
  - eapply (proj2 (stored_settings_are_restored tm b "dark" true true)).
    vm_compute. reflexivity.
Defined.


Lemma document_setStoredTheme t b :
  Browser.document (Theme.setStoredTheme t b) = Browser.document b.
Proof. unfold Theme.setStoredTheme. by destruct (Browser.setItem _ _ _). Qed.

Lemma document_setAutoMode v b :
  Browser.document (Theme.setAutoMode v b) = Browser.document b.
Proof. unfold Theme.setAutoMode. by destruct (Browser.setItem _ _ _). Qed.

Lemma document_stopAutoThemeCheck tm b :
  Browser.document (Theme.stopAutoThemeCheck tm b).2 = Browser.document b.
Proof.
  unfold Theme.stopAutoThemeCheck.
  by destruct (Theme.autoCheckInterval tm) as [[|n]|].
Qed.

(** What [updateToggleIcon] leaves on the page. *)
Lemma updateToggleIcon_shows tm b :
  let d := Browser.document (Theme.updateToggleIcon tm b) in
  Browser.data_theme d = Browser.data_theme (Browser.document b) ∧
  Browser.elements d = Browser.elements (Browser.document b) ∧
  (is_Some (Browser.elements (Browser.document b) !! ".theme-toggle .theme-icon") →
   Browser.icon_text d
   = Some (if Theme.autoMode tm then Browser.IconAuto
           else if Js.str_eqb (Theme.theme tm) "dark"
                then Browser.IconMoon else Browser.IconSun)) ∧
  (is_Some (Browser.elements (Browser.document b) !! ".theme-toggle") →
   Browser.toggle_title d
   = Some (if Theme.autoMode tm
           then "Auto theme enabled (long-press to disable)"
           else "Toggle theme (long-press for auto mode)")).
Proof.
  cbv zeta. unfold Theme.updateToggleIcon.
  destruct (Browser.elements (Browser.document b) !! ".theme-toggle .theme-icon")
    as [icon|] eqn:Ei; cbn;
    destruct (Browser.elements (Browser.document b) !! ".theme-toggle")
      as [toggle|] eqn:Et; cbn; rewrite ?Ei, ?Et;
    repeat split; try done; by intros [x Hx].
Qed.

(** What [applyTheme] leaves on the page. *)
Lemma applyTheme_shows t animate tm b :
  let d := Browser.document (Theme.applyTheme t animate tm b).2 in
  Browser.data_theme d = Some t ∧
  Browser.elements d = Browser.elements (Browser.document b) ∧
  (is_Some (Browser.elements (Browser.document b) !! ".theme-toggle .theme-icon") →
   Browser.icon_text d
   = Some (if Theme.autoMode tm then Browser.IconAuto
           else if Js.str_eqb t "dark"
                then Browser.IconMoon else Browser.IconSun)) ∧
  (is_Some (Browser.elements (Browser.document b) !! ".theme-toggle") →
   Browser.toggle_title d
   = Some (if Theme.autoMode tm
           then "Auto theme enabled (long-press to disable)"
           else "Toggle theme (long-press for auto mode)")).
Proof.
  cbv zeta. unfold Theme.applyTheme. cbn [snd].
  match goal with
  | |- context [Theme.updateToggleIcon ?m ?x] =>
      pose proof (updateToggleIcon_shows m x) as (Hd & He & Hi & Ht)
  end.
  rewrite document_setStoredTheme in Hd, He, Hi, Ht.
  cbn [Theme.autoMode Theme.theme] in Hi, Ht.
  rewrite Hd, He. by destruct animate.
Qed.

(** X10: after a manual toggle the page shows the new theme: the
    [data-theme] attribute is the manager's theme, the icon, when the page
    has one, is the moon for "dark" and the sun otherwise, never the
    auto-mode icon, and the button title, when the page has the button, is
    the one of manual mode. *)
Theorem toggleTheme_shows_the_theme (tm : Theme.ThemeManager)
  (b : Browser.Browser) :
  let after := Theme.toggleTheme tm b in
  Browser.data_theme (Browser.document after.2) = Some (Theme.theme after.1) ∧
  (is_Some (Browser.elements (Browser.document b) !! ".theme-toggle .theme-icon") →
   Browser.icon_text (Browser.document after.2)
   = Some (if Js.str_eqb (Theme.theme after.1) "dark"
           then Browser.IconMoon else Browser.IconSun)) ∧
  (is_Some (Browser.elements (Browser.document b) !! ".theme-toggle") →
   Browser.toggle_title (Browser.document after.2)
   = Some "Toggle theme (long-press for auto mode)").
Proof.
  cbv zeta. unfold Theme.toggleTheme.
  destruct (if Theme.autoMode tm then _ else _) as [tm1 b1] eqn:E.
  assert (H1 : Theme.autoMode tm1 = false ∧
               Browser.document b1 = Browser.document b).
  { destruct (Theme.autoMode tm) eqn:A.
    - match type of E with
      | Theme.stopAutoThemeCheck ?m ?x = _ =>
          pose proof (document_stopAutoThemeCheck m x) as Hd;
          assert (Ha : Theme.autoMode (Theme.stopAutoThemeCheck m x).1 = false)
            by (unfold Theme.stopAutoThemeCheck; cbn;
                by destruct (Theme.autoCheckInterval tm) as [[|n]|])
      end.
      rewrite E in Hd, Ha. by rewrite document_setAutoMode in Hd.
    - by injection E as <- <-. }
  destruct H1 as [Ha Hd].
  match goal with
  | |- context [Theme.applyTheme ?t true tm1 b1] =>
      pose proof (applyTheme_shows t true tm1 b1) as (H2 & _ & Hi & Ht)
  end.
  rewrite Ha, Hd in *. rewrite applyTheme_manager. cbn [Theme.theme fst].
  done.
Qed.

Lemma toggleTheme_shows_the_theme_witness :
  let b := Scenario.page Scenario.roomy_storage 20 Scenario.themed_document in
  let tm := {| Theme.theme := "light"; Theme.autoMode := true;
               Theme.autoCheckInterval := Some 1 |} in
  let after := Theme.toggleTheme tm b in
  Browser.icon_text (Browser.document after.2) = Some Browser.IconMoon ∧
  Browser.toggle_title (Browser.document after.2)
    = Some "Toggle theme (long-press for auto mode)".
Proof.
  intros b tm after.
  destruct (toggleTheme_shows_the_theme tm b) as (_ & Hicon & Htitle).
  split; [apply Hicon | apply Htitle]; by eexists.
Defined.

(** X11: the periodic check settles at once: applied to its own result, at
    the same hour, [autoThemeCheck] changes nothing, neither the manager nor
    the page, storage, console or timers. *)
Theorem autoThemeCheck_settles (tm : Theme.ThemeManager) (b : Browser.Browser) :
  let checked := Theme.autoThemeCheck tm b in
  Theme.autoThemeCheck checked.1 checked.2 = checked.
Proof.
  cbv zeta.
  destruct (Theme.autoMode tm) eqn:A;
    [destruct (Js.str_eqb (Theme.getAutoTheme b) (Theme.theme tm)) eqn:E|].
  - assert (H : Theme.autoThemeCheck tm b = (tm, b))
      by (unfold Theme.autoThemeCheck; by rewrite A, E).
    rewrite H. exact H.
  - assert (H : Theme.autoThemeCheck tm b
                = Theme.applyTheme (Theme.getAutoTheme b) true tm b)
      by (unfold Theme.autoThemeCheck; by rewrite A, E).
    rewrite H.
    set (r := Theme.applyTheme (Theme.getAutoTheme b) true tm b).
    assert (Hm : Theme.autoMode r.1 = true ∧
                 Theme.theme r.1 = Theme.getAutoTheme b)
      by (subst r; by rewrite applyTheme_manager).
    assert (Hh : Theme.getAutoTheme r.2 = Theme.getAutoTheme b)
      by apply getAutoTheme_hour, hour_applyTheme.
    destruct Hm as [Hm1 Hm2].
    unfold Theme.autoThemeCheck. rewrite Hm1, Hm2, Hh.
    unfold Js.str_eqb. rewrite bool_decide_eq_true_2 by done.
    symmetry; apply surjective_pairing.
  - assert (H : Theme.autoThemeCheck tm b = (tm, b))
      by (unfold Theme.autoThemeCheck; by rewrite A).
    rewrite H. exact H.
Qed.

(** * Further properties of the mobile menu *)

Section MenuFacts.
Import Menu.

Lemma contains_add c l : contains c ({[c]} ∪ l) = true.
Proof.
  unfold contains. apply bool_decide_eq_true_2.
  apply elem_of_union_l. by apply elem_of_singleton.
Qed.

Lemma contains_remove c l : contains c (l ∖ {[c]}) = false.
Proof.
  unfold contains. apply bool_decide_eq_false_2.
  rewrite not_elem_of_difference. right. by apply elem_of_singleton.
Qed.

Lemma add_remove (c : string) (l : gset string) :
  c ∉ l → ({[c]} ∪ l) ∖ {[c]} = l.
Proof.
  intros Hc. apply set_eq. intros x.
  rewrite elem_of_difference, elem_of_union, elem_of_singleton.
  destruct (decide (x = c)) as [->|]; tauto.
Qed.

Lemma remove_add (c : string) (l : gset string) :
  c ∈ l → {[c]} ∪ l ∖ {[c]} = l.
Proof.
  intros Hc. apply set_eq. intros x.
  rewrite elem_of_union, elem_of_difference, elem_of_singleton.
  destruct (decide (x = c)) as [->|]; tauto.
Qed.

Lemma toggleMenu_is_open p : is_open (toggleMenu p) = negb (is_open p).
Proof.
  unfold is_open, toggleMenu.
  destruct (contains "active" (navLinks_classList p)) eqn:E; simpl.
  - apply contains_remove.
  - apply contains_add.
Qed.

Lemma toggleMenu_in_step p : in_step (toggleMenu p).
Proof.
  unfold in_step. rewrite toggleMenu_is_open. unfold is_open, toggleMenu.
  destruct (contains "active" (navLinks_classList p)) eqn:E; simpl.
  - by rewrite contains_remove.
  - by rewrite contains_add.
Qed.

Lemma dispatch_cases e p : dispatch e p = p ∨ dispatch e p = toggleMenu p.
Proof.
  destruct e as [| |inNavLinks|key]; simpl.
  - by right.
  - unfold on_overlay_click.
    destruct (contains "active" (navLinks_classList p)) eqn:E.
    + right. unfold on_document_click.
      fold (is_open (toggleMenu p)). rewrite toggleMenu_is_open.
      unfold is_open. by rewrite E.
    + left. unfold on_document_click. by rewrite E.
  - unfold on_document_click. destruct (_ && _); [by right | by left].
  - unfold on_keydown. destruct (_ && _); [by right | by left].
Qed.

End MenuFacts.

(** X12: [toggleMenu] flips the menu and leaves the page in step, whatever
    it was before: the links carry [active] afterwards exactly when they did
    not before, the overlay carries it exactly when the links do,
    [aria-expanded] is "true" or "false" accordingly, the body scroll is
    locked exactly while the menu is open, and no other class of the links
    or the overlay is touched. *)
Theorem toggleMenu_flips_in_step (p : Menu.Page) :
  let q := Menu.toggleMenu p in
  is_open q = negb (is_open p) ∧ in_step q ∧
  (∀ c, c ≠ "active" →
        (c ∈ Menu.navLinks_classList q ↔ c ∈ Menu.navLinks_classList p) ∧
        (c ∈ Menu.overlay_classList q ↔ c ∈ Menu.overlay_classList p)).
Proof.
  cbv zeta. split; [apply toggleMenu_is_open|].
  split; [apply toggleMenu_in_step|].
  intros c Hc. unfold Menu.toggleMenu.
  destruct (Menu.contains "active" (Menu.navLinks_classList p)); simpl;
    rewrite ?elem_of_difference, ?elem_of_union, ?elem_of_singleton; tauto.
Qed.

(** X13: toggling twice restores a page that is in step: the class lists,
    [aria-expanded] and the body scroll are as before, and the console has
    the two lines of the two calls. *)
Theorem toggleMenu_twice (p : Menu.Page) :
  in_step p →
  Menu.toggleMenu (Menu.toggleMenu p)
  = {| Menu.navLinks_classList := Menu.navLinks_classList p;
       Menu.overlay_classList := Menu.overlay_classList p;
       Menu.aria_expanded := Menu.aria_expanded p;
       Menu.body_overflow := Menu.body_overflow p;
       Menu.console :=
         Menu.console p ++ ["Toggling menu"; "Toggling menu"] |}.
Proof.
  intros (Ho & Ha & Hb).
  unfold Menu.toggleMenu at 1.
  fold (is_open (Menu.toggleMenu p)). rewrite toggleMenu_is_open.
  unfold is_open in *. unfold Menu.toggleMenu.
  destruct (Menu.contains "active" (Menu.navLinks_classList p)) eqn:E;
    simpl; rewrite Ha, Hb, <- app_assoc; simpl;
    unfold Menu.contains in *;
    [apply bool_decide_eq_true in E, Ho | apply bool_decide_eq_false in E, Ho];
    f_equal; first [by apply remove_add | by apply add_remove].
Qed.

Lemma toggleMenu_twice_witness :
  let p := {| Menu.navLinks_classList := {["nav-links"]};
              Menu.overlay_classList := {["nav-overlay"]};
              Menu.aria_expanded := Some "false";
              Menu.body_overflow := "";
              Menu.console := [] |} in
  Menu.toggleMenu (Menu.toggleMenu p)
  = {| Menu.navLinks_classList := {["nav-links"]};
       Menu.overlay_classList := {["nav-overlay"]};
       Menu.aria_expanded := Some "false";
       Menu.body_overflow := "";
       Menu.console := ["Toggling menu"; "Toggling menu"] |}.
Proof.
  intros p. apply (toggleMenu_twice p). vm_compute. by repeat split.
Defined.

(** X14: only the menu button opens the menu.  Every event toggles the menu
    at most once, also a click on the overlay, which two listeners see; the
    Escape key, a click on the overlay and a click outside the links leave
    the menu closed; a click inside the links and any other key leave the
    page as it is; and after any other event than a click on the button the
    menu is open only if it was open before. *)
Theorem only_the_button_opens (e : Menu.Event) (p : Menu.Page) :
  (Menu.dispatch e p = p ∨ Menu.dispatch e p = Menu.toggleMenu p) ∧
  is_open (Menu.dispatch (Menu.KeyDown "Escape") p) = false ∧
  is_open (Menu.dispatch Menu.ClickOverlay p) = false ∧
  is_open (Menu.dispatch (Menu.ClickElsewhere false) p) = false ∧
  Menu.dispatch (Menu.ClickElsewhere true) p = p ∧
  (∀ key, key ≠ "Escape" → Menu.dispatch (Menu.KeyDown key) p = p) ∧
  (e ≠ Menu.ClickMenuButton →
   is_open (Menu.dispatch e p) = true → is_open p = true).
Proof.
  split; [apply dispatch_cases|].
  assert (Hclose : ∀ e', (is_open p = true → Menu.dispatch e' p = Menu.toggleMenu p) →
                         (is_open p = false → Menu.dispatch e' p = p) →
                         is_open (Menu.dispatch e' p) = false).
  { intros e' H1 H2. destruct (is_open p) eqn:E.
    - rewrite H1 by done. by rewrite toggleMenu_is_open, E.
    - by rewrite H2. }
  split; [|split; [|split; [|split; [|split]]]].
  - apply Hclose; unfold is_open; simpl; unfold Menu.on_keydown; by intros ->.
  - apply Hclose; unfold is_open; simpl; unfold Menu.on_overlay_click;
      intros E; rewrite E; unfold Menu.on_document_click.
    + fold (is_open (Menu.toggleMenu p)). rewrite toggleMenu_is_open.
      unfold is_open. by rewrite E.
    + by rewrite E.
  - apply Hclose; unfold is_open; simpl; unfold Menu.on_document_click;
      by intros ->.
  - simpl. unfold Menu.on_document_click.
    by destruct (Menu.contains _ _).
  - intros key Hkey. simpl. unfold Menu.on_keydown, Js.str_eqb.
    by rewrite bool_decide_eq_false_2.
  - intros He Hopen.
    destruct e as [| |inNavLinks|key]; [done| | |]; simpl in Hopen.
    + unfold Menu.on_overlay_click, Menu.on_document_click in Hopen.
      unfold is_open in *.
      destruct (Menu.contains "active" (Menu.navLinks_classList p)) eqn:E;
        [done|]. by rewrite E in Hopen; simpl in Hopen; rewrite E in Hopen.
    + unfold Menu.on_document_click in Hopen. unfold is_open in *.
      destruct (Menu.contains "active" (Menu.navLinks_classList p)) eqn:E;
        [done|]. simpl in Hopen. by rewrite E in Hopen.
    + unfold Menu.on_keydown in Hopen. unfold is_open in *.
      destruct (Menu.contains "active" (Menu.navLinks_classList p)) eqn:E;
        [done|]. rewrite andb_false_r in Hopen. by rewrite E in Hopen.
Qed.

(** X15: the page stays in step.  From a page that is in step, any sequence
    of clicks and key presses leaves the overlay, [aria-expanded] and the
    body scroll in agreement with the links. *)
Theorem menu_stays_in_step (events : list Menu.Event) (p : Menu.Page) :
  in_step p → in_step (fold_left (λ q e, Menu.dispatch e q) events p).
Proof.
  revert p. induction events as [|e events IH]; intros p Hp; [done|].
  simpl. apply IH.
  destruct (dispatch_cases e p) as [-> | ->]; [done|].
  apply toggleMenu_in_step.
Qed.

Lemma menu_stays_in_step_witness :
  in_step
    (fold_left (λ q e, Menu.dispatch e q)
       [Menu.ClickMenuButton; Menu.ClickElsewhere true; Menu.KeyDown "Escape"]
       {| Menu.navLinks_classList := {["nav-links"]};
          Menu.overlay_classList := {["nav-overlay"]};
          Menu.aria_expanded := Some "false";
          Menu.body_overflow := "";
          Menu.console := [] |}).
Proof.
  apply menu_stays_in_step. vm_compute. by repeat split.
Defined.

(** X16: [init] registers its listeners once.  Calling [init] again on the
    menu and page a first call left changes neither the menu nor the
    document, so no listener is added a second time; the second call only
    logs the error line. *)
Theorem init_again_changes_nothing (m : Nav.MobileMenu) (b : Browser.Browser) :
  let first := Nav.init m b in
  Nav.init first.1 first.2
  = (first.1,
     Browser.print Browser.Error
       "Menu elements not found or already initialized" first.2).
Proof.
  cbv zeta.
  assert (Hno : ∀ m' b',
    Nav.menuButton m' = None ∨ Nav.navLinks m' = None ∨
    Nav.initialized m' = true →
    Nav.init m' b'
    = (m', Browser.print Browser.Error
             "Menu elements not found or already initialized" b')).
  { intros m' b' Hc. unfold Nav.init.
    destruct (Nav.menuButton m'), (Nav.navLinks m'), (Nav.initialized m');
      try done; by destruct Hc as [Hc | [Hc | Hc]]. }
  apply Hno. unfold Nav.init.
  destruct (Nav.menuButton m) as [button|] eqn:Eb;
    [destruct (Nav.navLinks m) as [links|] eqn:El;
     [destruct (Nav.initialized m) eqn:Ei|]|]; cbn [fst]; auto.
  right; right. unfold Nav.init_elements.
  by destruct (Browser.elements (Browser.document b) !! ".nav-overlay").
Qed.

(** * Properties of the file watcher *)

Section WatcherFacts.
Import Watcher.

Lemma on_timeout_state tasklist node w :
  updateTimeout (on_timeout tasklist node w) = updateTimeout w ∧
  armed (on_timeout tasklist node w) = armed w ∧
  last_handle (on_timeout tasklist node w) = last_handle w ∧
  metadata_runs w ≤ metadata_runs (on_timeout tasklist node w)
    ≤ S (metadata_runs w).
Proof.
  unfold on_timeout, updateMetadata.
  destruct (isAppRunning tasklist); [destruct node|]; simpl; repeat split; lia.
Qed.

Lemma on_change_pdf eventType filename w :
  is_pdf filename = true → debounced w →
  updateTimeout (on_change eventType filename w) = Some (S (last_handle w)) ∧
  armed (on_change eventType filename w) = {[S (last_handle w)]} ∧
  last_handle (on_change eventType filename w) = S (last_handle w) ∧
  metadata_runs (on_change eventType filename w) = metadata_runs w.
Proof.
  intros Hpdf Hw. unfold on_change.
  destruct filename as [name|]; [|done]. rewrite Hpdf. simpl.
  split; [done|]. split; [|done].
  destruct Hw as [Hw | (id & Hu & Hw)]; rewrite Hw.
  - assert (Hc : match updateTimeout w with
                 | Some old => (∅ : gset nat) ∖ {[old]}
                 | None => ∅
                 end = ∅).
    { destruct (updateTimeout w) as [old|]; [|done].
      apply subseteq_empty_difference_L, empty_subseteq. }
    rewrite Hc. apply union_empty_r_L.
  - rewrite Hu, difference_diag_L. apply union_empty_r_L.
Qed.

Lemma on_change_other eventType filename w :
  is_pdf filename = false → on_change eventType filename w = w.
Proof.
  intros Hpdf. unfold on_change.
  destruct filename as [name|]; [|done]. by rewrite Hpdf.
Qed.

Lemma debounced_step w e : debounced w → debounced (step w e).
Proof.
  intros Hw. destruct e as [eventType filename | id tasklist node]; simpl.
  - destruct (is_pdf filename) eqn:Hpdf.
    + destruct (on_change_pdf eventType filename w Hpdf Hw) as (H1 & H2 & _).
      right. by eexists.
    + by rewrite on_change_other.
  - unfold elapse. case_bool_decide as Hid; [|done].
    left.
    match goal with
    | |- armed (on_timeout _ _ ?x) = _ =>
        destruct (on_timeout_state tasklist node x) as (_ & -> & _)
    end.
    simpl. destruct Hw as [Hw | (id' & _ & Hw)]; rewrite Hw in *.
    + apply difference_disjoint_L, disjoint_empty_l.
    + apply elem_of_singleton in Hid as ->. apply difference_diag_L.
Qed.

Lemma debounced_size w : debounced w → base.size (armed w) ≤ 1.
Proof.
  intros [-> | (id & _ & ->)]; [rewrite size_empty | rewrite size_singleton];
    lia.
Qed.

Lemma step_budget w e :
  debounced w →
  metadata_runs (step w e) + base.size (armed (step w e))
  ≤ metadata_runs w + base.size (armed w)
    + (if is_pdf_change e then 1 else 0).
Proof.
  intros Hw. destruct e as [eventType filename | id tasklist node]; simpl.
  - destruct (is_pdf filename) eqn:Hpdf.
    + destruct (on_change_pdf eventType filename w Hpdf Hw)
        as (_ & -> & _ & ->).
      rewrite size_singleton. lia.
    + rewrite on_change_other by done. lia.
  - unfold elapse. case_bool_decide as Hid; [|lia].
    match goal with
    | |- context [on_timeout _ _ ?x] =>
        destruct (on_timeout_state tasklist node x) as (_ & -> & _ & Hr)
    end.
    simpl in Hr |- *.
    set (r := metadata_runs (on_timeout _ _ _)) in *. clearbody r.
    destruct Hw as [Hw | (id' & _ & Hw)]; rewrite Hw in *.
    + by apply elem_of_empty in Hid.
    + apply elem_of_singleton in Hid as ->.
      rewrite difference_diag_L, size_empty, size_singleton. lia.
Qed.

Lemma run_snoc events e w : run (events ++ [e]) w = step (run events w) e.
Proof. unfold run. by rewrite fold_left_app. Qed.


Lemma debounced_run events env handle :
  debounced (run events (start env handle)).
Proof.
  induction events as [|e events IH] using rev_ind; [by left|].
  rewrite run_snoc. by apply debounced_step.
Qed.


End WatcherFacts.

(** X17: the watcher debounces.  After any sequence of file changes and
    elapsed timeouts since the script started, at most one timeout is still
    to fire, and it is the one [updateTimeout] holds; and the metadata
    script was started, or is still waiting to be, at most once per PDF
    change seen. *)
Theorem watcher_debounces (env : Env) (handle : nat)
  (events : list Watcher.Event) :
  let w := Watcher.run events (Watcher.start env handle) in
  base.size (Watcher.armed w) ≤ 1 ∧
  (∀ id, id ∈ Watcher.armed w → Watcher.updateTimeout w = Some id) ∧
  Watcher.metadata_runs w + base.size (Watcher.armed w)
  ≤ length (filter (λ e, Watcher.is_pdf_change e = true) events).
Proof.
  cbv zeta. split; [apply debounced_size, debounced_run|]. split.
  - intros id Hid.
    destruct (debounced_run events env handle) as [Hw | (id' & Hu & Hw)];
      rewrite Hw in Hid.
    + by apply elem_of_empty in Hid.
    + by apply elem_of_singleton in Hid as ->.
  - induction events as [|e events IH] using rev_ind.
    + change (0 + base.size (∅ : gset nat) ≤ 0). rewrite size_empty. lia.
    + rewrite run_snoc, filter_app, length_app.
      pose proof (step_budget _ e (debounced_run events env handle)) as Hs.
      rewrite filter_cons, filter_nil.
      destruct (Watcher.is_pdf_change e);
        [rewrite decide_True by done | rewrite decide_False by done];
        simpl in *; lia.
Qed.



(** * Local storage shared between the theme manager and the offline cache *)

Section SharedStorageFacts.
Import Browser.

Lemma others_kept_refl b : others_kept b b.
Proof. by intros key _ _. Qed.

Lemma others_kept_trans b1 b2 b3 :
  others_kept b1 b2 → others_kept b2 b3 → others_kept b1 b3.
Proof. intros H1 H2 key Ht Ha. by rewrite H2, H1. Qed.

Lemma others_kept_storage b b' :
  localStorage b' = localStorage b → others_kept b b'.
Proof. intros H key _ _. by rewrite H. Qed.

Lemma others_kept_setAutoMode v b : others_kept b (Theme.setAutoMode v b).
Proof.
  intros key _ Ha. unfold Theme.setAutoMode.
  destruct (setItem _ _ _) as [stored|e] eqn:E; simpl; [|done].
  by apply (getItem_setItem_ne "themeAutoMode" key _ _ _ (not_eq_sym Ha) E).
Qed.

Lemma others_kept_applyTheme t animate tm b :
  others_kept b (Theme.applyTheme t animate tm b).2.
Proof. intros key Ht _. by apply getItem_applyTheme. Qed.

Lemma others_kept_stopAutoThemeCheck tm b :
  others_kept b (Theme.stopAutoThemeCheck tm b).2.
Proof.
  apply others_kept_storage. unfold Theme.stopAutoThemeCheck.
  by destruct (Theme.autoCheckInterval tm) as [[|n]|].
Qed.

Lemma others_kept_setupToggleButton tm b :
  others_kept b (Theme.setupToggleButton tm b).
Proof.
  apply others_kept_storage. unfold Theme.setupToggleButton.
  destruct (elements (document b) !! ".theme-toggle"); [|done].
  by rewrite localStorage_updateToggleIcon.
Qed.

Lemma others_kept_toggleTheme tm b : others_kept b (Theme.toggleTheme tm b).2.
Proof.
  unfold Theme.toggleTheme.
  destruct (if Theme.autoMode tm then _ else _) as [tm1 b1] eqn:E.
  eapply others_kept_trans; [|apply others_kept_applyTheme].
  destruct (Theme.autoMode tm).
  - eapply others_kept_trans; [apply (others_kept_setAutoMode false)|].
    match type of E with
    | Theme.stopAutoThemeCheck ?m ?x = _ =>
        pose proof (others_kept_stopAutoThemeCheck m x) as H
    end.
    by rewrite E in H.
  - injection E as <- <-. apply others_kept_refl.
Qed.

Lemma others_kept_toggleAutoMode tm b :
  others_kept b (Theme.toggleAutoMode tm b).2.
Proof.
  unfold Theme.toggleAutoMode. cbn [Theme.autoMode].
  eapply others_kept_trans;
    [apply (others_kept_setAutoMode (negb (Theme.autoMode tm)))|].
  destruct (negb (Theme.autoMode tm)).
  - match goal with
    | |- context [Theme.applyTheme ?t true ?m ?x] =>
        pose proof (others_kept_applyTheme t true m x) as H;
        destruct (Theme.applyTheme t true m x) as [tm2 b2]
    end.
    simpl in *. eapply others_kept_trans; [exact H|].
    by apply others_kept_storage.
  - match goal with
    | |- context [Theme.stopAutoThemeCheck ?m ?x] =>
        pose proof (others_kept_stopAutoThemeCheck m x) as H;
        destruct (Theme.stopAutoThemeCheck m x) as [tm2 b2]
    end.
    simpl in *. eapply others_kept_trans; [exact H|].
    by apply others_kept_storage.
Qed.

Lemma others_kept_interval_fires id tm b :
  others_kept b (Theme.interval_fires id tm b).2.
Proof.
  unfold Theme.interval_fires, Theme.autoThemeCheck.
  destruct (bool_decide _); [|apply others_kept_refl].
  destruct (Theme.autoMode tm); [|apply others_kept_refl].
  destruct (Js.str_eqb _ _); [apply others_kept_refl|].
  apply others_kept_applyTheme.
Qed.

Lemma others_kept_init tm b : others_kept b (Theme.init tm b).2.
Proof.
  unfold Theme.init.
  pose proof (others_kept_applyTheme (Theme.theme tm) true tm b) as H.
  destruct (Theme.applyTheme (Theme.theme tm) true tm b) as [tm1 b1].
  simpl in H. eapply others_kept_trans; [exact H|].
  assert (H2 : others_kept b1
    (if loading (document b1)
     then with_document
            (ThemeBasic.add_listener TheDocument "DOMContentLoaded" (document b1))
            b1
     else Theme.setupToggleButton tm1 b1)).
  { destruct (loading (document b1));
      [by apply others_kept_storage | apply others_kept_setupToggleButton]. }
  destruct (Theme.autoMode tm1); [|exact H2].
  eapply others_kept_trans; [exact H2|]. by apply others_kept_storage.
Qed.

Lemma others_kept_new b : others_kept b (Theme.new_ThemeManager b).2.
Proof.
  unfold Theme.new_ThemeManager.
  pose proof (getStoredTheme_storage b) as [Hs _].
  destruct (Theme.getStoredTheme b) as [stored b1]. simpl in Hs.
  pose proof (getAutoMode_browser b1) as Ha.
  destruct (Theme.getAutoMode b1) as [auto b2]. simpl in Ha. subst b2.
  eapply others_kept_trans; [by apply others_kept_storage|].
  apply others_kept_init.
Qed.

End SharedStorageFacts.

(** X19: the theme manager writes only its own two items.  Whatever else
    local storage holds, such as what the offline cache saved, reads the
    same after the manager is built, after a click, after a long press and
    after a tick of the auto-check interval. *)
Theorem theme_manager_keeps_other_items (key : string)
  (tm : Theme.ThemeManager) (b : Browser.Browser) (id : nat) :
  key ≠ "theme" → key ≠ "themeAutoMode" →
  let read b' := Browser.getItem key (Browser.localStorage b') in
  read (Theme.new_ThemeManager b).2 = read b ∧
  read (Theme.toggleTheme tm b).2 = read b ∧
  read (Theme.toggleAutoMode tm b).2 = read b ∧
  read (Theme.interval_fires id tm b).2 = read b.
Proof.
  intros Ht Ha. cbv zeta. repeat split.
  - by apply others_kept_new.
  - by apply others_kept_toggleTheme.
  - by apply others_kept_toggleAutoMode.
  - by apply others_kept_interval_fires.
Qed.

Lemma theme_manager_keeps_other_items_witness :
  let b :=
    Scenario.page (Browser.Available (<["gpa" := "42"]> ∅) 1000) 20
      Scenario.themed_document in
  let started := Theme.new_ThemeManager b in
  Browser.getItem "gpa" (Browser.localStorage started.2) = Ok (Some "42") ∧
  Browser.getItem "gpa"
    (Browser.localStorage (Theme.toggleAutoMode started.1 started.2).2)
  = Ok (Some "42").
Proof.
  intros b started. subst started.
  assert (H1 : "gpa" ≠ "theme") by done.
  assert (H2 : "gpa" ≠ "themeAutoMode") by done.
  destruct (theme_manager_keeps_other_items "gpa"
              (Theme.new_ThemeManager b).1 b 0 H1 H2) as (Hn & _).
  destruct (theme_manager_keeps_other_items "gpa"
              (Theme.new_ThemeManager b).1 (Theme.new_ThemeManager b).2 0
              H1 H2) as (_ & _ & Ha & _).
  cbv zeta in Hn, Ha. split; [by rewrite Hn | by rewrite Ha, Hn].
Defined.

(** X20: [saveOfflineData] touches one item, and nothing when it fails.
    Every other key reads the same afterwards; when the function returns
    [false] local storage is as it was and the console has one more line,
    the error; when it returns [true] the console is as it was. *)
Theorem saveOfflineData_touches_its_item {Value : Type}
  (JSON_stringify : Value → Result string) (key : string) (data : Value)
  (b : Browser.Browser) :
  let saved := OfflineCache.saveOfflineData JSON_stringify key data b in
  (∀ other, other ≠ key →
     Browser.getItem other (Browser.localStorage saved.2)
     = Browser.getItem other (Browser.localStorage b)) ∧
  (saved.1 = false →
     Browser.localStorage saved.2 = Browser.localStorage b ∧
     ∃ line, Browser.console saved.2
             = Browser.console b ++
                 [{| Browser.level := Browser.Error; Browser.text := line |}]) ∧
  (saved.1 = true → Browser.console saved.2 = Browser.console b).
Proof.
  cbv zeta. unfold OfflineCache.saveOfflineData.
  destruct (JSON_stringify data) as [jsonData|e]; simpl.
  - destruct (Browser.setItem key jsonData (Browser.localStorage b))
      as [stored|e] eqn:E; simpl.
    + split; [|by split].
      intros other Hne.
      by apply (getItem_setItem_ne key other jsonData _ _ (not_eq_sym Hne) E).
    + split; [done|]. split; [|done]. intros _. split; [done|]. by eexists.
  - split; [done|]. split; [|done]. intros _. split; [done|]. by eexists.
Qed.

Lemma saveOfflineData_touches_its_item_witness :
  let b := Scenario.page Scenario.full_storage 9 Scenario.empty_document in
  let saved :=
    OfflineCache.saveOfflineData OfflineCache.stringify_scalar "gpa"
      (OfflineCache.SNum 42) b in
  saved.1 = false ∧
  Browser.localStorage saved.2 = Browser.localStorage b ∧
  Browser.getItem "theme" (Browser.localStorage saved.2) = Ok (Some "light").
Proof.
  intros b saved.
  pose proof (saveOfflineData_touches_its_item OfflineCache.stringify_scalar
                "gpa" (OfflineCache.SNum 42) b) as (Hother & Hfalse & _).
  split; [reflexivity|]. split.
  - apply Hfalse. reflexivity.
  - rewrite Hother by done. reflexivity.
Defined.

(** * From the scan to the update: a new material points to its file *)

Section RoundTripFacts.
Import Metadata.

Lemma named_node_directory s items :
  named_node (Directory s items) ↔ named_items items.
Proof.
  simpl. induction items as [|[i n] rest IH]; [done|].
  simpl. by rewrite IH.
Qed.

Lemma append_inj_l (a b c : string) : a +:+ b = a +:+ c → b = c.
Proof.
  induction a as [|x a IH]; [by rewrite !append_empty_l|].
  rewrite !append_cons. intros [= H]. by apply IH.
Qed.

Lemma entry_here i n rest : entry i ((i, n) :: rest) = Some n.
Proof. simpl. unfold Js.str_eqb. by rewrite bool_decide_eq_true_2. Qed.

Lemma entry_later i n nm rest :
  i ≠ nm → entry nm ((i, n) :: rest) = entry nm rest.
Proof.
  intros H. simpl. unfold Js.str_eqb. by rewrite bool_decide_eq_false_2.
Qed.

Lemma entry_elem nm items child :
  entry nm items = Some child → nm ∈ items.*1.
Proof.
  induction items as [|[i n] rest IH]; [done|].
  destruct (decide (i = nm)) as [->|Hne].
  - intros _. by left.
  - rewrite entry_later by done. intros H. right. by apply IH.
Qed.

Lemma walk_descend (segs : list string) :
  Forall entry_name segs →
  ∀ above cur, walk_path above cur segs = descend cur segs.
Proof.
  induction 1 as [|seg rest (H1 & H2 & H3 & _) _ IH]; intros above cur; [done|].
  simpl. destruct cur as [st | st items]; [done|].
  unfold Js.str_eqb. rewrite !bool_decide_eq_false_2 by done. simpl.
  destruct (entry seg items) as [child|]; [apply IH | done].
Qed.

Lemma descend_app (a b : list string) (cur : Node) :
  descend cur (a ++ b) = descend cur a ≫= λ n, descend n b.
Proof.
  revert cur. induction a as [|x a IH]; intros cur; [done|].
  simpl. destruct cur as [st | st items]; [done|].
  destruct (entry x items) as [child|]; [apply IH | done].
Qed.

Lemma absolute_path_snoc (l : list string) (x : string) :
  absolute_path l +:+ "/" +:+ x = absolute_path (l ++ [x]).
Proof.
  unfold absolute_path.
  change (EmptyString :: l ++ [x]) with ((EmptyString :: l) ++ [x]).
  by rewrite join_snoc.
Qed.

Lemma absolute_path_below (base segs : list string) :
  fold_left Path.join_entry segs (absolute_path base)
  = absolute_path (base ++ segs).
Proof.
  revert base. induction segs as [|x segs IH]; intros base.
  - by rewrite app_nil_r.
  - simpl. unfold Path.join_entry at 2. rewrite absolute_path_snoc, IH.
    by rewrite <- app_assoc.
Qed.

Lemma directory_route (p : string) (s : Stats) (items : list (string * Node)) :
  Forall (λ x, node_route_ok x.2) items →
  NoDup (items.*1) → tidy_items items → named_items items →
  ∀ f, f ∈ files_of_directory p items →
    ∃ segs, Forall entry_name segs ∧
            file_path f = fold_left Path.join_entry segs p ∧
            descend (Directory s items) segs = Some (File f.2).
Proof.
  intros IH. induction IH as [|[i n] rest Hn _ IHrest]; intros ND T N f Hf.
  { by apply elem_of_nil in Hf. }
  simpl in T, N. destruct T as (_ & Tn & Trest). destruct N as (Ni & Nn & Nrest).
  apply NoDup_cons in ND as [Hi ND].
  simpl in Hf. apply elem_of_app in Hf as [Hf | Hf].
  - destruct (Hn i (Path.join_entry p i) f Tn Nn Hf) as (segs & Hs & Hp & Hd).
    exists (i :: segs). split; [by constructor|]. split; [done|].
    cbn [descend]. by rewrite entry_here.
  - destruct (IHrest ND Trest Nrest f Hf) as (segs & Hs & Hp & Hd).
    exists segs. split; [done|]. split; [done|].
    destruct segs as [|nm segs]; [done|].
    cbn [descend] in Hd |- *.
    destruct (entry nm rest) as [child|] eqn:E; [|done].
    rewrite entry_later, E; [done|].
    intros ->. apply Hi. by apply entry_elem in E.
Qed.

Lemma files_of_node_route n : node_route_ok n.
Proof.
  induction n as [stats | s items IH] using Node_induction;
    intros item p f T N Hf.
  - apply list_elem_of_singleton in Hf as ->. by exists [].
  - rewrite files_of_node_directory in Hf.
    apply tidy_node_directory in T as [ND T].
    apply named_node_directory in N.
    by apply (directory_route p s items IH ND T N).
Qed.

Lemma notesDir_absolute (env : Env) (rootsegs : list string) :
  root env = absolute_path rootsegs →
  notesDir env = absolute_path (rootsegs ++ ["data"; "notes"]).
Proof.
  intros H. unfold notesDir. rewrite H.
  change (rootsegs ++ ["data"; "notes"]) with (rootsegs ++ ["data"] ++ ["notes"]).
  rewrite app_assoc, <- !absolute_path_snoc. by rewrite !append_assoc.
Qed.

Lemma resolve_absolute (env : Env) (segs : list string) :
  segs ≠ [] → Forall entry_name segs →
  resolve env (absolute_path segs)
  = match disk env with
    | File _ => None
    | Directory _ _ => descend (disk env) segs
    end.
Proof.
  intros Hne Hs. unfold resolve, absolute_path.
  assert (Habs : Js.startsWith "/" (Js.join "/" (EmptyString :: segs)) = true).
  { rewrite join_cons by done. by rewrite append_empty_l. }
  rewrite Habs. unfold Js.split. rewrite split_join; [|done|].
  - simpl. destruct (disk env) as [st | st items].
    + by destruct segs.
    + by apply walk_descend.
  - eapply Forall_impl; [exact Hs|]. by intros y (_ & _ & _ & H).
Qed.

Lemma entry_name_data_notes : Forall entry_name ["data"; "notes"].
Proof. repeat constructor; done. Qed.

End RoundTripFacts.

(** X21: a material the scan creates points back to its file.  In a
    repository whose root is an absolute path of entry names, for a file the
    walk finds below the notes directory, the record [createMaterialFromFile]
    builds has a path that [updateMaterialMetadata] turns back into the
    file's own path; [statSync] finds the file there; and the update leaves
    the record as it is, logging "Updated" and never "File not found". *)
Theorem scanned_material_is_found (env : Env) (rootsegs : list string)
  (s : Stats) (items : list (string * Node)) (f : string * string * Stats) :
  root env = absolute_path rootsegs → Forall entry_name rootsegs →
  resolve env (notesDir env) = Some (Directory s items) →
  Metadata.tidy_node (Directory s items) → named_node (Directory s items) →
  f ∈ Metadata.files_of_directory (notesDir env) items →
  Metadata.notes_prefix_once env (Metadata.file_path f) →
  let m := Metadata.createMaterialFromFile env (Metadata.file_path f) f.2 in
  Metadata.material_file env m = Metadata.file_path f ∧
  statSync env (Metadata.material_file env m) = Ok f.2 ∧
  Metadata.updateMaterialMetadata env m
  = (m, Metadata.ConsoleLog
          ("Updated: " +:+ title m +:+ " - " +:+ size m)).
Proof.
  intros Hroot Hsegs Hdir Htidy Hnamed Hf Honce. cbv zeta.
  (* where the file lies *)
  pose proof (proj1 (tidy_node_directory _ _) Htidy) as [ND Ti].
  pose proof (proj1 (named_node_directory _ _) Hnamed) as Ni.
  destruct (directory_route (notesDir env) s items
              ltac:(apply Forall_forall; intros x _; apply files_of_node_route)
              ND Ti Ni f Hf) as (segs & Hs & Hp & Hd).
  pose proof (notesDir_absolute env rootsegs Hroot) as Hnotes.
  rewrite Hnotes, absolute_path_below in Hp.
  set (base := rootsegs ++ ["data"; "notes"]) in *.
  assert (Hbase : Forall entry_name base)
    by (apply Forall_app; split; [done | apply entry_name_data_notes]).
  assert (Hbase_ne : base ≠ []) by (subst base; by destruct rootsegs).
  (* the path the material records *)
  destruct (files_of_directory_paths s (notesDir env) items Htidy) as [Hpaths _].
  destruct (Hpaths f Hf) as (rel & B & E).
  assert (Hrel : Js.includes "data/notes/" rel = false).
  { unfold Metadata.notes_prefix_once in Honce.
    rewrite E, relativePath_below in Honce by done.
    change 11 with (String.length "data/notes/") in Honce.
    by rewrite substring_from_append in Honce. }
  assert (Hfile : Metadata.material_file env
                    (Metadata.createMaterialFromFile env (Metadata.file_path f) f.2)
                  = Metadata.file_path f).
  { assert (Hpath : path (Metadata.createMaterialFromFile env
                            (Metadata.file_path f) f.2)
                    = "../data/notes/" +:+ rel)
      by (rewrite E; by apply createMaterialFromFile_path).
    unfold Metadata.material_file. rewrite Hpath.
    change (Js.startsWith "../data/" ("../data/notes/" +:+ rel)) with true.
    change (Js.substring_from 3 ("../data/notes/" +:+ rel))
      with ("data/notes/" +:+ rel).
    unfold Path.join.
    replace (root env +:+ "/" +:+ "data/notes/" +:+ rel)
      with (Metadata.file_path f)
      by (rewrite E; unfold notesDir; by rewrite !append_assoc).
    rewrite Hp. apply normalize_absolute_path.
    - by destruct base.
    - by apply Forall_app. }
  (* the file is found there *)
  assert (Hstat : statSync env (Metadata.file_path f) = Ok f.2).
  { unfold statSync. rewrite Hp, resolve_absolute;
      [| by destruct base | by apply Forall_app].
    rewrite Hnotes, resolve_absolute in Hdir by done.
    destruct (disk env) as [st | st top]; [done|].
    rewrite descend_app, Hdir. cbn [mbind option_bind]. by rewrite Hd. }
  split; [exact Hfile|]. split; [by rewrite Hfile|].
  unfold Metadata.updateMaterialMetadata. rewrite Hfile, Hstat.
  reflexivity.
Qed.

Lemma scanned_material_is_found_witness :
  let env := Scenario.repo Scenario.dbms_notes in
  let f := ("unit 2.pdf", "/repo/data/notes/semester-3/cse/DBMS/unit 2.pdf",
            Scenario.stats0) in
  let m := Metadata.createMaterialFromFile env (Metadata.file_path f) f.2 in
  Metadata.material_file env m = Metadata.file_path f ∧
  statSync env (Metadata.material_file env m) = Ok f.2 ∧
  Metadata.updateMaterialMetadata env m
  = (m, Metadata.ConsoleLog
          ("Updated: " +:+ title m +:+ " - " +:+ size m)).
Proof.
  intros env f.
  destruct dbms_notes_in_place as (H1 & H2 & _).
  apply (scanned_material_is_found env ["repo"]
           {| st_size := 4096; st_mtime := "2024-03-05T10:15:30.000Z" |}
           Scenario.dbms_notes f).
  - reflexivity.
  - repeat constructor; done.
  - exact H1.
  - exact H2.
  - simpl. repeat split; done.
  - apply list_elem_of_In. simpl. right. left. reflexivity.
  - vm_compute. reflexivity.
Defined.

(** * Construction of the menu and the basic theme manager *)

(** X22: what [new MobileMenu()] leaves on a page that has the button and
    the links.  The element the page now shows for [.menu-button] is the
    clone the menu holds, and it carries the click listener; the page has an
    overlay and the menu holds it; an overlay that was already there is
    reused, and only then no second element is created; and exactly the four
    listeners are added, on the clone, the overlay and the document. *)
Theorem new_MobileMenu_wires_the_page (b : Browser.Browser)
  (button links : nat) :
  Browser.elements (Browser.document b) !! ".menu-button" = Some button →
  Browser.elements (Browser.document b) !! ".nav-links" = Some links →
  let m := (Nav.new_MobileMenu b).1 in
  let d := Browser.document (Nav.new_MobileMenu b).2 in
  ∃ clone overlay,
    Nav.menuButton m = Some clone ∧ Nav.overlay m = Some overlay ∧
    Nav.navLinks m = Some links ∧
    clone = Browser.next_element (Browser.document b) ∧
    Browser.elements d !! ".menu-button" = Some clone ∧
    Browser.elements d !! ".nav-overlay" = Some overlay ∧
    Browser.elements d !! ".nav-links" = Some links ∧
    match Browser.elements (Browser.document b) !! ".nav-overlay" with
    | Some old => overlay = old ∧ Browser.next_element d = S clone
    | None => overlay = S clone ∧ Browser.next_element d = S (S clone)
    end ∧
    Browser.listeners d
    = Browser.listeners (Browser.document b) ++
        [(Browser.TheElement clone, "click");
         (Browser.TheElement overlay, "click");
         (Browser.TheDocument, "click"); (Browser.TheDocument, "keydown")].
Proof.
  intros H1 H2. cbv zeta. unfold Nav.new_MobileMenu.
  rewrite !querySelector_document by reflexivity.
  unfold Nav.init; simpl. rewrite H1, H2. unfold Nav.init_elements.
  destruct (Browser.elements (Browser.document b) !! ".nav-overlay")
    as [old|] eqn:E; simpl.
  - exists (Browser.next_element (Browser.document b)), old.
    repeat split; try done.
    + by rewrite lookup_insert_eq.
    + by rewrite lookup_insert_ne.
    + by rewrite lookup_insert_ne.
  - exists (Browser.next_element (Browser.document b)),
      (S (Browser.next_element (Browser.document b))).
    repeat split; try done.
    + rewrite lookup_insert_ne by done. by rewrite lookup_insert_eq.
    + by rewrite lookup_insert_eq.
    + by rewrite !lookup_insert_ne.
Qed.

Lemma new_MobileMenu_wires_the_page_witness :
  let b :=
    Scenario.page Scenario.roomy_storage 9
      {| Browser.loading := false;
         Browser.elements := <[".menu-button" := 1]> (<[".nav-links" := 2]> ∅);
         Browser.next_element := 3; Browser.listeners := [];
         Browser.data_theme := None; Browser.transitioning := false;
         Browser.icon_text := None; Browser.toggle_title := None;
         Browser.notifications := [] |} in
  let m := (Nav.new_MobileMenu b).1 in
  let d := Browser.document (Nav.new_MobileMenu b).2 in
  ∃ clone overlay,
    Nav.menuButton m = Some clone ∧ Nav.overlay m = Some overlay ∧
    Browser.elements d !! ".menu-button" = Some clone ∧
    Browser.elements d !! ".nav-overlay" = Some overlay.
Proof.
  intros b.
  destruct (new_MobileMenu_wires_the_page b 1 2)
    as (clone & overlay & H1 & H2 & _ & _ & H3 & H4 & _);
    [vm_compute; reflexivity | vm_compute; reflexivity |].
  by exists clone, overlay.
Defined.

Section ThemeBasicFacts.
Import Browser.

Lemma basic_updateToggleIcon_page tm b :
  localStorage (ThemeBasic.updateToggleIcon tm b) = localStorage b ∧
  data_theme (document (ThemeBasic.updateToggleIcon tm b))
    = data_theme (document b) ∧
  loading (document (ThemeBasic.updateToggleIcon tm b)) = loading (document b).
Proof.
  unfold ThemeBasic.updateToggleIcon.
  by destruct (elements (document b) !! ".theme-toggle .theme-icon").
Qed.

Lemma basic_setStoredTheme_document t b :
  document (ThemeBasic.setStoredTheme t b) = document b.
Proof. unfold ThemeBasic.setStoredTheme. by destruct (setItem _ _ _). Qed.

Lemma basic_applyTheme_page t tm b :
  ThemeBasic.theme (ThemeBasic.applyTheme t tm b).1 = t ∧
  data_theme (document (ThemeBasic.applyTheme t tm b).2) = Some t ∧
  (∀ stored, setItem "theme" t (localStorage b) = Ok stored →
             localStorage (ThemeBasic.applyTheme t tm b).2 = stored).
Proof.
  unfold ThemeBasic.applyTheme. cbn [fst snd ThemeBasic.theme].
  match goal with
  | |- context [ThemeBasic.updateToggleIcon ?m ?x] =>
      destruct (basic_updateToggleIcon_page m x) as (-> & -> & _)
  end.
  rewrite basic_setStoredTheme_document. split; [done|]. split; [done|].
  intros stored H. unfold ThemeBasic.setStoredTheme. simpl. by rewrite H.
Qed.

Lemma basic_new_theme b :
  ThemeBasic.theme (ThemeBasic.new_ThemeManager b).1
  = match getItem "theme" (localStorage b) with
    | Ok (Some t) => if Js.truthy t then t else "dark"
    | _ => "dark"
    end.
Proof.
  unfold ThemeBasic.new_ThemeManager, ThemeBasic.getStoredTheme.
  assert (Hinit : ∀ tm b', ThemeBasic.theme (ThemeBasic.init tm b').1
                           = ThemeBasic.theme tm).
  { intros tm b'. unfold ThemeBasic.init.
    pose proof (basic_applyTheme_page (ThemeBasic.theme tm) tm b') as [H _].
    destruct (ThemeBasic.applyTheme _ tm b') as [tm1 b1]. simpl in H.
    by destruct (loading (document b1)). }
  destruct (getItem "theme" (localStorage b)) as [[t|]|]; by rewrite Hinit.
Qed.

End ThemeBasicFacts.

(** X23: the basic theme manager of [navigation.js].  A toggle always lands
    on "dark" or "light" and always changes the theme; the page's
    [data-theme] attribute is the new theme; and when local storage accepts
    the new theme, a manager built on the next page load starts with it.
    With nothing stored, or with local storage unavailable, a new manager
    starts dark. *)
Theorem basic_toggleTheme_persists (tm : ThemeBasic.ThemeManager)
  (b : Browser.Browser) :
  let after := ThemeBasic.toggleTheme tm b in
  let t := ThemeBasic.theme after.1 in
  (t = "dark" ∨ t = "light") ∧ t ≠ ThemeBasic.theme tm ∧
  Browser.data_theme (Browser.document after.2) = Some t ∧
  (∀ stored,
     Browser.setItem "theme" t (Browser.localStorage b) = Ok stored →
     ThemeBasic.theme (ThemeBasic.new_ThemeManager after.2).1 = t) ∧
  (∀ b0, Browser.getItem "theme" (Browser.localStorage b0) = Ok None ∨
         Browser.localStorage b0 = Browser.Unavailable →
         ThemeBasic.theme (ThemeBasic.new_ThemeManager b0).1 = "dark").
Proof.
  cbv zeta. unfold ThemeBasic.toggleTheme.
  match goal with
  | |- context [ThemeBasic.applyTheme ?t tm b] =>
      destruct (basic_applyTheme_page t tm b) as (Ht & Hd & Hs);
      set (new := t) in *
  end.
  rewrite Ht, Hd.
  assert (Hnew : (new = "dark" ∨ new = "light") ∧ new ≠ ThemeBasic.theme tm).
  { subst new. unfold Js.str_eqb. case_bool_decide as E.
    - rewrite E. by split; [right|].
    - split; [by left|]. by intros H. }
  destruct Hnew as [Hn1 Hn2].
  split; [done|]. split; [done|]. split; [done|]. split.
  - intros stored Hset. rewrite basic_new_theme, (Hs stored Hset).
    rewrite (getItem_setItem_eq _ _ _ _ Hset).
    by destruct Hn1 as [-> | ->].
  - intros b0 H. rewrite basic_new_theme.
    destruct H as [-> | ->]; done.
Qed.

Lemma basic_toggleTheme_persists_witness :
  let b := Scenario.page Scenario.roomy_storage 9 Scenario.themed_document in
  let after := ThemeBasic.toggleTheme {| ThemeBasic.theme := "dark" |} b in
  ThemeBasic.theme (ThemeBasic.new_ThemeManager after.2).1 = "light" ∧
  ThemeBasic.theme
    (ThemeBasic.new_ThemeManager
       (Scenario.page Browser.Unavailable 9 Scenario.themed_document)).1
  = "dark".
Proof.
  intros b after.
  destruct (basic_toggleTheme_persists {| ThemeBasic.theme := "dark" |} b)
    as (_ & _ & _ & Hstored & Hnone).
  split.
  - eapply Hstored. vm_compute. reflexivity.
  - apply Hnone. by right.
Defined.
